(** * marimo [mo.image]: normalisation and rendering of image-like values

    A shallow embedding of [marimo/_plugins/stateless/image.py]
    ([_normalize_image] and [image]) together with the properties its
    specification states about it.

    The Python heap (byte streams), the local file system, the virtual-file
    store and the optional-dependency flags are threaded through a state and
    exception monad.  numpy's arithmetic is modelled in the dtype of the
    array: the IEEE 754 operations of [SpecFloat] for [float16], [float32]
    and [float64], wrap-around integers for the signed and unsigned integer
    dtypes of 8 to 64 bits. *)

From Stdlib Require Import ZArith List Bool Lia SpecFloat.
From stdpp Require Import base gmap strings list pretty.

Open Scope Z_scope.

(** ** IEEE 754 binary formats *)

Module IEEE.

Abbreviation float := spec_float.

(** The floating-point dtypes of numpy: half, single and double. *)
Inductive format :=
| Binary16
| Binary32
| Binary64.

(** The bits of the mantissa, the implicit one included. *)
Definition prec (f : format) : Z :=
  match f with Binary16 => 11 | Binary32 => 24 | Binary64 => 53 end.

(** The exponent of the infinities. *)
Definition emax (f : format) : Z :=
  match f with Binary16 => 16 | Binary32 => 128 | Binary64 => 1024 end.

Definition sub (f : format) : float -> float -> float := SFsub (prec f) (emax f).
Definition div (f : format) : float -> float -> float := SFdiv (prec f) (emax f).
Definition mul (f : format) : float -> float -> float := SFmul (prec f) (emax f).

(** Conversion of an integer to [float64], rounding to nearest even (C's
    [(double) n]). *)
Definition of_Z (z : Z) : float := binary_normalize 53 1024 z 0 false.

(** The number [1.0] in a format. *)
Definition one (f : format) : float :=
  match f with
  | Binary16 => S754_finite false 1024 (-10)
  | Binary32 => S754_finite false 8388608 (-23)
  | Binary64 => S754_finite false 4503599627370496 (-52)
  end.

(** The Python float [255.0] in a format; it is a number of each. *)
Definition f255 (f : format) : float :=
  match f with
  | Binary16 => S754_finite false 2040 (-3)
  | Binary32 => S754_finite false 16711680 (-16)
  | Binary64 => S754_finite false 8972014882652160 (-45)
  end.

Definition is_zero (x : float) : bool :=
  match x with S754_zero _ => true | _ => false end.

Definition is_nan (x : float) : bool :=
  match x with S754_nan => true | _ => false end.

(** A number proper: a zero or a finite non-zero value. *)
Definition is_finite (x : float) : bool :=
  match x with S754_zero _ | S754_finite _ _ _ => true | _ => false end.

(** A value that is neither a zero nor a NaN. *)
Definition is_nonzero (x : float) : bool :=
  match x with S754_finite _ _ _ | S754_infinity _ => true | _ => false end.

(** Canonical representation in a format (normalised mantissa, exponent in
    range). *)
Definition valid (f : format) (x : float) : bool := valid_binary (prec f) (emax f) x.

(** Sort key of a finite float: [SFcompare] orders finite floats as the
    lexicographic order orders their keys. *)
Definition key (x : float) : Z * Z * Z :=
  match x with
  | S754_finite false m e => (1, e, Z.pos m)
  | S754_finite true m e => (-1, - e, Z.neg m)
  | _ => (0, 0, 0)
  end.

Definition key_lt (a b : Z * Z * Z) : Prop :=
  let '(a1, a2, a3) := a in
  let '(b1, b2, b3) := b in
  a1 < b1 \/ (a1 = b1 /\ (a2 < b2 \/ (a2 = b2 /\ a3 < b3))).

End IEEE.

Import IEEE.

(** ** numpy arrays *)

(** The integer dtypes of numpy. *)
Inductive int_type :=
| Int8 | Int16 | Int32 | Int64
| UInt8 | UInt16 | UInt32 | UInt64.

(** The least value of an integer dtype and the first value beyond it. *)
Definition int_lo (t : int_type) : Z :=
  match t with
  | Int8 => - 2 ^ 7 | Int16 => - 2 ^ 15 | Int32 => - 2 ^ 31 | Int64 => - 2 ^ 63
  | UInt8 | UInt16 | UInt32 | UInt64 => 0
  end.

Definition int_hi (t : int_type) : Z :=
  match t with
  | Int8 => 2 ^ 7 | Int16 => 2 ^ 15 | Int32 => 2 ^ 31 | Int64 => 2 ^ 63
  | UInt8 => 2 ^ 8 | UInt16 => 2 ^ 16 | UInt32 => 2 ^ 32 | UInt64 => 2 ^ 64
  end.

(** Wrap-around of the arithmetic of an integer dtype: the value of the
    dtype congruent to [z] modulo the number of its values. *)
Definition wrap (t : int_type) (z : Z) : Z :=
  (z - int_lo t) mod (int_hi t - int_lo t) + int_lo t.

(** The element buffer of an array, by dtype: a floating-point dtype
    ([float16], [float32], [float64]) or an integer dtype.  Lists of Python
    floats coerce to [float64], lists of Python ints to [int64]; an array
    object keeps the dtype it has.  Arrays of booleans, of complex numbers
    and of objects are not covered. *)
Inductive buffer :=
| FloatBuf (f : format) (xs : list float)
| IntBuf (t : int_type) (xs : list Z).

Abbreviation F64 := (FloatBuf Binary64).
Abbreviation I64 := (IntBuf Int64).

Record ndarray := { shape : list nat; buf : buffer }.

(** A numpy scalar, as [min()] and [max()] return it. *)
Inductive scalar :=
| SFloat (x : float)
| SInt (z : Z).

Definition to_float (s : scalar) : float :=
  match s with SFloat x => x | SInt z => of_Z z end.

(** The format floating-point results of an array are computed in: its own
    for a floating-point array, [float64] for an integer array (true
    division of integers is done in [float64]). *)
Definition result_format (a : buffer) : format :=
  match a with FloatBuf f _ => f | IntBuf _ _ => Binary64 end.

(** [numpy.minimum] and [numpy.maximum] on floats: a NaN operand wins. *)
Definition fminimum (a b : float) : float :=
  if is_nan a then a else if is_nan b then b else if SFltb b a then b else a.

Definition fmaximum (a b : float) : float :=
  if is_nan a then a else if is_nan b then b else if SFltb a b then b else a.

(** [arr.min()]; [None] stands for the [ValueError] numpy raises on a
    zero-size array. *)
Definition np_min (a : buffer) : option scalar :=
  match a with
  | FloatBuf _ [] | IntBuf _ [] => None
  | FloatBuf _ (x :: xs) => Some (SFloat (fold_left fminimum xs x))
  | IntBuf _ (x :: xs) => Some (SInt (fold_left Z.min xs x))
  end.

Definition np_max (a : buffer) : option scalar :=
  match a with
  | FloatBuf _ [] | IntBuf _ [] => None
  | FloatBuf _ (x :: xs) => Some (SFloat (fold_left fmaximum xs x))
  | IntBuf _ (x :: xs) => Some (SInt (fold_left Z.max xs x))
  end.

(** [arr - s]: element-wise, in the array's dtype. *)
Definition np_sub (a : buffer) (s : scalar) : buffer :=
  match a, s with
  | IntBuf t xs, SInt z => IntBuf t (map (fun x => wrap t (x - z)) xs)
  | IntBuf t xs, SFloat y => F64 (map (fun x => sub Binary64 (of_Z x) y) xs)
  | FloatBuf f xs, _ => FloatBuf f (map (fun x => sub f x (to_float s)) xs)
  end.

(** [x - y] on two scalars of the array's dtype. *)
Definition scalar_sub (a : buffer) (x y : scalar) : scalar :=
  match a, x, y with
  | IntBuf t _, SInt x, SInt y => SInt (wrap t (x - y))
  | _, _, _ => SFloat (sub (result_format a) (to_float x) (to_float y))
  end.

Definition to_floats (a : buffer) : list float :=
  match a with FloatBuf _ xs => xs | IntBuf _ xs => map of_Z xs end.

(** [arr / s]: true division, in the result format of the array. *)
Definition np_true_divide (a : buffer) (s : scalar) : list float :=
  map (fun x => div (result_format a) x (to_float s)) (to_floats a).

(** [arr * y] for the Python float [y], in the format of the array. *)
Definition np_mul (f : format) (xs : list float) (y : float) : list float :=
  map (fun x => mul f x y) xs.

(** The divisor [src.max() - src.min()] of the normalisation. *)
Definition divisor (a : buffer) : option scalar :=
  hi ← np_max a; lo ← np_min a; Some (scalar_sub a hi lo).

(** [(src - src.min()) / (src.max() - src.min())] *)
Definition quotients (a : buffer) : option (list float) :=
  lo ← np_min a;
  d ← divisor a;
  Some (np_true_divide (np_sub a lo) d).

(** [(src - src.min()) / (src.max() - src.min()) * 255.0] *)
Definition min_max_scale (a : buffer) : option (list float) :=
  q ← quotients a;
  Some (np_mul (result_format a) q (f255 (result_format a))).

Definition scalar_is_zero (s : scalar) : bool :=
  match s with SFloat x => is_zero x | SInt z => z =? 0 end.

(** The divisor is neither a zero nor a NaN. *)
Definition scalar_is_nonzero (s : scalar) : bool :=
  match s with SFloat x => is_nonzero x | SInt z => negb (z =? 0) end.

(** The divisor is a finite non-zero number: the division is an ordinary
    one. *)
Definition scalar_is_regular (s : scalar) : bool :=
  match s with
  | SFloat x => is_nonzero x && is_finite x
  | SInt z => negb (z =? 0)
  end.

(** All elements of the grid have the same value. *)
Definition constant (a : buffer) : Prop :=
  match a with
  | FloatBuf _ xs => forall x y, In x xs -> In y xs -> SFeqb x y = true
  | IntBuf _ xs => forall x y, In x xs -> In y xs -> x = y
  end.

(** The elements are numbers of the dtype: canonical finite floats of the
    format, or integers within the range of the integer dtype. *)
Definition numeric (a : buffer) : Prop :=
  match a with
  | FloatBuf f xs => forall x, In x xs -> valid f x = true /\ is_finite x = true
  | IntBuf t xs => forall x, In x xs -> int_lo t <= x < int_hi t
  end.

Definition nonempty (a : buffer) : Prop :=
  match a with FloatBuf _ xs => xs <> [] | IntBuf _ xs => xs <> [] end.

(** The range [max - min] is representable: the subtraction does not
    overflow to an infinity.  Integer ranges wrap and always are. *)
Definition range_finite (a : buffer) : Prop :=
  match divisor a with
  | Some (SFloat d) => is_finite d = true
  | _ => True
  end.

(** The element at position [i] of the flattened grid has the value of the
    scalar. *)
Definition elem_eq (a : buffer) (i : nat) (s : scalar) : Prop :=
  match a, s with
  | FloatBuf _ xs, SFloat y => exists x, xs !! i = Some x /\ SFeqb x y = true
  | IntBuf _ xs, SInt y => xs !! i = Some y
  | _, _ => False
  end.

(** [arr.size]: the number of elements. *)
Definition np_size (a : buffer) : nat :=
  match a with FloatBuf _ xs => length xs | IntBuf _ xs => length xs end.
(** ** Python values *)

Abbreviation bytes := (list Byte.byte).

(** A [PIL.Image.Image]: its [format] attribute, its mode, its size (width
    and height) and its pixel data. *)
Record PILImage := {
  pil_format : option string;
  pil_mode : string;
  pil_size : nat * nat;
  pil_pixels : list Z
}.

(** The duck-typed capabilities [_normalize_image] probes with [hasattr]. *)
Record Caps := {
  has___array__ : bool;
  has_toarray : bool;
  has___array_interface__ : bool
}.

(** The values [mo.image] can be called with.  A list stands for a nested
    numeric sequence and carries the grid [numpy.array] coerces it to; an
    object of any other class carries its class name, its capabilities and
    the grid it denotes (itself when it has [__array_interface__], the result
    of [numpy.array] on it or on its [toarray()] otherwise). *)
Inductive PyObj :=
| PyStr (s : string)
| PyBytes (b : bytes)
| PyBytesIO (ref : nat)
| PyBufferedReader (ref : nat)
| PyPath (p : string)
| PyList (items : ndarray)
| PyImage (img : PILImage)
| PyObject (cls : string) (caps : Caps) (arr : ndarray).

Definition isinstance_list (o : PyObj) : bool :=
  match o with PyList _ => true | _ => false end.

Definition hasattr (o : PyObj) (attr : string) : bool :=
  match o with
  | PyObject _ caps _ =>
      if String.eqb attr "__array__" then has___array__ caps
      else if String.eqb attr "toarray" then has_toarray caps
      else if String.eqb attr "__array_interface__" then has___array_interface__ caps
      else false
  | _ => false
  end.

(** [isinstance(src, _Image.Image)] *)
Definition isinstance_Image (o : PyObj) : bool :=
  match o with PyImage _ => true | _ => false end.

(** [isinstance(src, (str, bytes, io.BytesIO, io.BufferedReader, Path))] *)
Definition isinstance_image_type (o : PyObj) : bool :=
  match o with
  | PyStr _ | PyBytes _ | PyBytesIO _ | PyBufferedReader _ | PyPath _ => true
  | _ => false
  end.

(** The guard of the array branch of [_normalize_image]. *)
Definition is_array_like (o : PyObj) : bool :=
  isinstance_list o || hasattr o "__array__" || hasattr o "toarray".

(** The grid an array-like object denotes; only used under the guard of the
    array branch, the empty grid stands for every other object. *)
Definition array_of (o : PyObj) : ndarray :=
  match o with
  | PyList a => a
  | PyObject _ _ a => a
  | _ => {| shape := [0%nat]; buf := F64 [] |}
  end.

(** [src.toarray()]: the dense array of a sparse matrix. *)
Definition toarray (o : PyObj) : PyObj :=
  match o with
  | PyObject _ _ a =>
      PyObject "numpy.ndarray"
        {| has___array__ := true; has_toarray := false;
           has___array_interface__ := true |} a
  | _ => o
  end.

(** [numpy.array(src)] *)
Definition numpy_array (o : PyObj) : ndarray := array_of o.

(** [src] as a [PIL.Image.Image], when it is an instance of it. *)
Definition as_Image (o : PyObj) : option PILImage :=
  match o with PyImage im => Some im | _ => None end.

(** [f"{type(src)}"] *)
Definition type_repr (o : PyObj) : string :=
  let class name := "<class '" +:+ name +:+ "'>" in
  match o with
  | PyStr _ => class "str"
  | PyBytes _ => class "bytes"
  | PyBytesIO _ => class "_io.BytesIO"
  | PyBufferedReader _ => class "_io.BufferedReader"
  | PyPath _ => class "pathlib.PosixPath"
  | PyList _ => class "list"
  | PyImage _ => class "PIL.Image.Image"
  | PyObject cls _ _ => class cls
  end.

(** The exceptions of the two functions.  [ModuleNotFoundError] is the
    missing-dependency error of the specification, [ValueError] with the
    message of [_normalize_image] its unsupported-type error; [TypeError]
    and [IndexError] are those of [PIL.Image.fromarray].
    [InvalidReference] is raised on a reference to no stream; no Python
    program sees it, every stream object it holds is on the heap. *)
Inductive PyExc :=
| ModuleNotFoundError (package why : string)
| ValueError (msg : string)
| TypeError (msg : string)
| IndexError (msg : string)
| FileNotFoundError (path : string)
| InvalidReference (ref : nat).

(** ** Collaborators outside the module *)

Class Platform := {
  (** What the C conversion of a [double] outside the range of [uint8] (or of
      a NaN) leaves in the byte: undefined behaviour, fixed by the platform. *)
  cast_undefined : float -> Z;
  (** [img.save(stream, format=fmt)]: the encoded bytes. *)
  pil_save : PILImage -> string -> bytes;
  (** [os.path.expanduser] *)
  expanduser : string -> string;
  (** [pathlib.PurePath.suffix] *)
  path_suffix : string -> string;
  (** [marimo._plugins.core.media.io_to_data_url] *)
  io_to_data_url : PyObj -> string -> option string;
  (** The URL under which the virtual-file store serves a new entry. *)
  vfile_url : gmap string bytes -> bytes -> option string -> string
}.

(** ** The state: heap, file system, virtual files, dependencies *)

(** An [io.BytesIO] or [io.BufferedReader]: its whole contents and the
    current read/write position. *)
Record Stream := { content : bytes; pos : nat }.

Record World := {
  streams : list Stream;
  files : gmap string bytes;
  vfiles : gmap string bytes;
  pillow_installed : bool;
  numpy_installed : bool;
  pillow_imported : bool
}.

Inductive Result (A : Type) :=
| Ok (a : A)
| Raise (e : PyExc).

Arguments Ok {A} a.
Arguments Raise {A} e.

Definition M (A : Type) : Type := World -> Result A * World.

#[export] Instance M_ret : MRet M := fun A a w => (Ok a, w).

#[export] Instance M_bind : MBind M := fun A B f m w =>
  match m w with
  | (Ok a, w') => f a w'
  | (Raise e, w') => (Raise e, w')
  end.

Definition ret {A} (a : A) : M A := mret a.
Definition raise {A} (e : PyExc) : M A := fun w => (Raise e, w).
Definition gets {A} (f : World -> A) : M A := fun w => (Ok (f w), w).
Definition modify (f : World -> World) : M unit := fun w => (Ok tt, f w).

Definition set_streams (s : list Stream) (w : World) : World :=
  {| streams := s; files := files w; vfiles := vfiles w;
     pillow_installed := pillow_installed w;
     numpy_installed := numpy_installed w;
     pillow_imported := pillow_imported w |}.

Definition set_vfiles (v : gmap string bytes) (w : World) : World :=
  {| streams := streams w; files := files w; vfiles := v;
     pillow_installed := pillow_installed w;
     numpy_installed := numpy_installed w;
     pillow_imported := pillow_imported w |}.

Definition set_pillow_imported (b : bool) (w : World) : World :=
  {| streams := streams w; files := files w; vfiles := vfiles w;
     pillow_installed := pillow_installed w;
     numpy_installed := numpy_installed w;
     pillow_imported := b |}.

(** *** Byte streams *)

(** [io.BytesIO()]: a new empty stream; its reference is fresh. *)
Definition new_BytesIO : M nat := fun w =>
  (Ok (length (streams w)),
   set_streams (streams w ++ [ {| content := []; pos := 0 |} ]) w).

Definition with_stream {A} (ref : nat) (f : Stream -> A * Stream) : M A := fun w =>
  match streams w !! ref with
  | Some st => let '(a, st') := f st in (Ok a, set_streams (<[ref := st']> (streams w)) w)
  | None => (Raise (InvalidReference ref), w)
  end.

(** [stream.seek(n)] *)
Definition stream_seek (ref n : nat) : M unit :=
  with_stream ref (fun st => (tt, {| content := content st; pos := n |})).

(** [stream.read()]: everything from the position to the end. *)
Definition stream_read (ref : nat) : M bytes :=
  with_stream ref (fun st =>
    (drop (pos st) (content st),
     {| content := content st; pos := Nat.max (pos st) (length (content st)) |})).

(** [stream.write(data)]: overwrite from the position, zero-filling a gap. *)
Definition stream_write (ref : nat) (data : bytes) : M unit :=
  with_stream ref (fun st =>
    (tt,
     {| content := take (pos st) (content st)
                   ++ replicate (pos st - length (content st))%nat Byte.x00
                   ++ data
                   ++ drop (pos st + length data) (content st);
        pos := (pos st + length data)%nat |})).

(** *** Files *)

(** [os.path.isfile] *)
Definition isfile (path : string) : M bool :=
  gets (fun w => bool_decide (is_Some (files w !! path))).

(** [Path(path).read_bytes()] *)
Definition read_bytes (path : string) : M bytes := fun w =>
  match files w !! path with
  | Some data => (Ok data, w)
  | None => (Raise (FileNotFoundError path), w)
  end.

(** *** Dependencies *)

(** Modelled from the spec: [DependencyManager.pillow.require] and
    [DependencyManager.numpy.require] (marimo._dependencies.dependencies),
    which fail with the missing-dependency error, naming the capability,
    when the package is unavailable. *)
Definition require (package : string) (installed : World -> bool) (why : string) : M unit :=
  fun w => if installed w then (Ok tt, w)
           else (Raise (ModuleNotFoundError package why), w).

(** [from PIL import Image as _Image] *)
Definition import_PIL : M unit := modify (set_pillow_imported true).

(** *** The virtual-file store *)

(** Modelled from the spec: [mo_data.image] (marimo._output.data.data), the
    virtual-file store [register(bytes, extensionHint?) -> url]: it accepts
    bytes and returns a URL that from then on refers to them. *)
Definition mo_data_image `{Platform} (data : bytes) (ext : option string) : M string :=
  fun w =>
    let url := vfile_url (vfiles w) data ext in
    (Ok url, set_vfiles (<[url := data]> (vfiles w)) w).

(** ** Python dictionaries and the HTML builder *)

(** A [dict] with string keys, in insertion order; the value [None] is
    Python's [None]. *)
Abbreviation PyDict := (list (string * option string)).

(** [d[k] = v]: an existing key keeps its place and takes the new value, a
    new key goes last. *)
Fixpoint dict_set (k : string) (v : option string) (d : PyDict) : PyDict :=
  match d with
  | [] => [(k, v)]
  | (k', v') :: r =>
      if String.eqb k k' then (k, v) :: r else (k', v') :: dict_set k v r
  end.

Fixpoint dict_get (k : string) (d : PyDict) : option (option string) :=
  match d with
  | [] => None
  | (k', v') :: r => if String.eqb k k' then Some v' else dict_get k r
  end.

(** [{**d, **items}]: the items are set from left to right. *)
Definition dict_update (d items : PyDict) : PyDict :=
  fold_left (fun acc kv => dict_set kv.1 kv.2 acc) items d.

(** A dictionary display [{k1: v1, ..., kn: vn}]. *)
Definition dict_of (items : PyDict) : PyDict := dict_update [] items.

(** The keys of a Python dictionary are pairwise different. *)
Definition dict_wf (d : PyDict) : Prop := NoDup d.*1.

(** The [width] and [height] arguments: [Optional[Union[int, str]]]. *)
Inductive Dim :=
| DimInt (n : Z)
| DimStr (s : string).

(** Modelled from the spec: [normalize_dimension] (marimo._output.utils),
    which normalises a dimension to a CSS length: a plain number [N] becomes
    ["Npx"], a string is passed through. *)
Definition normalize_dimension (v : option Dim) : option string :=
  match v with
  | None => None
  | Some (DimInt n) => Some (pretty n +:+ "px")
  | Some (DimStr s) => Some s
  end.

(** Modelled from the spec: [create_style] (marimo._output.utils), which
    turns the dictionary into the CSS declarations of the [style] attribute;
    an entry whose value is [None] declares nothing. *)
Definition create_style (pairs : PyDict) : list (string * string) :=
  omap (fun kv => (kv.1,.) <$> kv.2) pairs.

(** Modelled from the spec: the elements [h.img], [h.figcaption] and
    [h.figure] (marimo._output.builder) build, wrapped in [Html]. *)
#[warnings="-register-all"]
Inductive Html :=
| Img (src alt : option string) (style : list (string * string))
| Figcaption (children : list string) (style : string)
| Figure (children : list Html) (style : string).

(** The [<img>] element of a fragment [image] returns. *)
Definition img_of (h : Html) : option Html :=
  match h with
  | Img _ _ _ => Some h
  | Figure (Img s a st :: _) _ => Some (Img s a st)
  | _ => None
  end.

Definition img_src (h : Html) : option string :=
  match h with Img s _ _ => s | _ => None end.

Definition img_style (h : Html) : list (string * string) :=
  match h with Img _ _ st => st | _ => [] end.

(** ** [_normalize_image] *)

Section Image.
Context `{Platform}.

(** The C conversion of a floating-point value to [uint8] behind
    [astype("uint8")]: truncation toward zero where the truncated value
    fits, the platform's choice elsewhere. *)
Definition to_uint8 (x : float) : Z :=
  match x with
  | S754_zero _ => 0
  | S754_finite s m e =>
      let t := Z.shiftl (Z.pos m) e in
      if s then (if t =? 0 then 0 else cast_undefined x mod 256)
      else (if t <=? 255 then t else cast_undefined x mod 256)
  | _ => cast_undefined x mod 256
  end.

Definition astype_uint8 (xs : list float) : list Z := map to_uint8 xs.

(** [repr] of a tuple of two or more integers. *)
Definition tuple_repr (t : list nat) : string :=
  "(" +:+ String.concat ", " (map pretty t) +:+ ")".

(** [Image.frombuffer(mode, size, obj, "raw", rawmode, 0, 1)]: an image over
    the pixel data, of no file format. *)
Definition frombuffer (mode : string) (size : nat * nat) (pixels : list Z) : PILImage :=
  {| pil_format := None; pil_mode := mode; pil_size := size; pil_pixels := pixels |}.

(** The modes of Pillow's table [_fromarray_typemap] for the type string
    [|u1], by the dimensions after the second (the key is
    [(1, 1) + shape[2:]]). *)
Definition fromarray_typemap (rest : list nat) : option string :=
  match rest with
  | [] => Some "L"
  | [2%nat] => Some "LA"
  | [3%nat] => Some "RGB"
  | [4%nat] => Some "RGBA"
  | _ => None
  end.

(** [_Image.fromarray] on a [uint8] array of the given shape: the mode is
    looked up by the dimensions after the second, a miss raises [TypeError];
    the size is [(1, shape[0])] for one dimension and [(shape[1], shape[0])]
    otherwise, which raises [IndexError] on a zero-dimensional array.  (The
    modes found admit the number of dimensions that found them.) *)
Definition fromarray (shp : list nat) (pixels : list Z) : Result PILImage :=
  match fromarray_typemap (drop 2 shp) with
  | None =>
      Raise (TypeError ("Cannot handle this data type: "
                        +:+ tuple_repr (1%nat :: 1%nat :: drop 2 shp) +:+ ", |u1"))
  | Some mode =>
      match shp with
      | [] => Raise (IndexError "tuple index out of range")
      | [h] => Ok (frombuffer mode (1%nat, h) pixels)
      | h :: w :: _ => Ok (frombuffer mode (w, h) pixels)
      end
  end.

(** The shapes [_Image.fromarray] makes an image of: [(n,)], [(h, w)] and
    [(h, w, c)] with two, three or four channels. *)
Definition image_shape (shp : list nat) : bool :=
  match shp with
  | [_] | [_; _] => true
  | [_; _; c] => (2 <=? c)%nat && (c <=? 4)%nat
  | _ => false
  end.

(** Lines 71-72: the [uint8] pixels handed to [_Image.fromarray]. *)
Definition array_pixels (a : buffer) : option (list Z) :=
  astype_uint8 <$> min_max_scale a.

Definition of_option {A} (o : option A) (e : PyExc) : M A :=
  match o with Some a => ret a | None => raise e end.

Definition of_result {A} (r : Result A) : M A :=
  match r with Ok a => ret a | Raise e => raise e end.

Definition zero_size_error : PyExc :=
  ValueError "zero-size array to reduction operation minimum which has no identity".

Definition unsupported_type (src : PyObj) : PyExc :=
  ValueError ("Expected an image object, but got " +:+ type_repr src +:+ " instead.").

(** [src.format or "PNG"] *)
Definition format_or_PNG (im : PILImage) : string :=
  match pil_format im with
  | Some f => if String.eqb f EmptyString then "PNG" else f
  | None => "PNG"
  end.

Definition _normalize_image (src : PyObj) : M PyObj :=
  if isinstance_list src || hasattr src "__array__" || hasattr src "toarray" then
    _ ← require "PIL" pillow_installed "to render images from arrays in `mo.image`";
    _ ← import_PIL;
    arr ← (if negb (hasattr src "__array_interface__") then
             _ ← require "numpy" numpy_installed
                   "to render images from generic arrays in `mo.image`";
             (* Capture those sparse cases *)
             ret (numpy_array (if hasattr src "toarray" then toarray src else src))
           else ret (array_of src));
    pixels ← of_option (array_pixels (buf arr)) zero_size_error;
    img ← of_result (fromarray (shape arr) pixels);
    (* io.BytesIO is one of the Image types. *)
    normalized_src ← new_BytesIO;
    _ ← stream_write normalized_src (pil_save img "PNG");
    ret (PyBytesIO normalized_src)
  else
    (* Handle PIL Image objects *)
    imported ← gets pillow_imported;
    match (if (imported : bool) then as_Image src else None) with
    | Some im =>
        img_byte_arr ← new_BytesIO;
        _ ← stream_write img_byte_arr (pil_save im (format_or_PNG im));
        _ ← stream_seek img_byte_arr 0;
        ret (PyBytesIO img_byte_arr)
    | None =>
        (* Verify that this is a image object *)
        if negb (isinstance_image_type src) then raise (unsupported_type src)
        else ret src
    end.

(** ** [image] *)

(** Lines 145-158: the URL the [src] attribute gets. *)
Definition resolve_src (src : PyObj) : M (option string) :=
  match src with
  | PyBufferedReader r | PyBytesIO r =>
      _ ← stream_seek r 0;
      data ← stream_read r;
      url ← mo_data_image data None;
      ret (Some url)
  | PyBytes b =>
      url ← mo_data_image b None;
      ret (Some url)
  | PyPath p =>
      data ← read_bytes p;
      url ← mo_data_image data (Some (path_suffix p));
      ret (Some url)
  | PyStr s =>
      let expanded_path := expanduser s in
      is_file ← isfile expanded_path;
      if (is_file : bool) then
        data ← read_bytes expanded_path;
        url ← mo_data_image data (Some (path_suffix expanded_path));
        ret (Some url)
      else ret (io_to_data_url src "image/png")
  | _ => ret (io_to_data_url src "image/png")
  end.

(** Lines 160-167: the dictionary handed to [create_style]. *)
Definition style_dict (width height : option Dim) (rounded : bool)
    (style : option PyDict) : PyDict :=
  dict_update
    (dict_of [ ("width", normalize_dimension width);
               ("height", normalize_dimension height);
               ("border-radius", if rounded then Some "4px" else None) ])
    (default [] style).

Definition image (src : PyObj) (alt : option string) (width height : option Dim)
    (rounded : bool) (style : option PyDict) (caption : option string) : M Html :=
  (* Convert to virtual file *)
  src ← _normalize_image src;
  resolved_src ← resolve_src src;
  let styles := create_style (style_dict width height rounded style) in
  let img := Img resolved_src alt styles in
  match caption with
  | Some caption =>
      ret (Figure
             [ img;
               Figcaption [caption]
                 "color: var(--muted-foreground); text-align: center; margin-top: 0.5rem;" ]
             "display: flex; flex-direction: column;")
  | None => ret img
  end.

(** *** The outcomes of [_normalize_image], branch by branch *)

(** The outcome of the array branch. *)
Definition array_branch_result (src : PyObj) (w : World) : Result PyObj * World :=
  if negb (pillow_installed w) then
    (Raise (ModuleNotFoundError "PIL" "to render images from arrays in `mo.image`"), w)
  else if negb (hasattr src "__array_interface__") && negb (numpy_installed w) then
    (Raise (ModuleNotFoundError "numpy" "to render images from generic arrays in `mo.image`"),
     set_pillow_imported true w)
  else
    match array_pixels (buf (array_of src)) with
    | Some pixels =>
        match fromarray (shape (array_of src)) pixels with
        | Ok img =>
            let data := pil_save img "PNG" in
            (Ok (PyBytesIO (length (streams w))),
             set_streams (streams w ++ [ {| content := data; pos := length data |} ])
               (set_pillow_imported true w))
        | Raise e => (Raise e, set_pillow_imported true w)
        end
    | None => (Raise zero_size_error, set_pillow_imported true w)
    end.

(** The outcome of the other branches: an image object is saved to a new
    stream, rewound; an image type passes; anything else is refused. *)
Definition other_branch_result (src : PyObj) (w : World) : Result PyObj * World :=
  match (if pillow_imported w then as_Image src else None) with
  | Some im =>
      (Ok (PyBytesIO (length (streams w))),
       set_streams
         (streams w ++ [ {| content := pil_save im (format_or_PNG im); pos := 0 |} ]) w)
  | None =>
      if isinstance_image_type src then (Ok src, w)
      else (Raise (unsupported_type src), w)
  end.

(** The fragment [image] builds around the resolved URL. *)
Definition image_html (resolved_src alt : option string)
    (styles : list (string * string)) (caption : option string) : Html :=
  let img := Img resolved_src alt styles in
  match caption with
  | Some caption =>
      Figure
        [ img;
          Figcaption [caption]
            "color: var(--muted-foreground); text-align: center; margin-top: 0.5rem;" ]
        "display: flex; flex-direction: column;"
  | None => img
  end.

End Image.

(** ** A concrete platform and world for the examples *)

(** The suffix of the paths of the examples. *)
Definition demo_suffix (p : string) : string :=
  if String.eqb (String.substring (String.length p - 4) 4 p) ".png" then ".png"
  else if String.eqb (String.substring (String.length p - 4) 4 p) ".jpg" then ".jpg"
  else EmptyString.

(** Conversions outside the range give the byte 0 (NaN and overflow on
    x86-64); the codec writes the name of the format and one byte per pixel;
    [~/] expands to [/home/user/]; virtual files are numbered. *)
Definition demo_platform : Platform := {|
  cast_undefined := fun _ => 0;
  pil_save := fun img fmt =>
    String.list_byte_of_string fmt
    ++ map (fun p => default Byte.x00 (Byte.of_N (Z.to_N p))) (pil_pixels img);
  expanduser := fun s =>
    if String.prefix "~/" s
    then "/home/user/" +:+ String.substring 2 (String.length s - 2) s
    else s;
  path_suffix := demo_suffix;
  io_to_data_url := fun o _ => match o with PyStr s => Some s | _ => None end;
  vfile_url := fun store data ext =>
    "./@file/" +:+ pretty (size store) +:+ default ".png" ext
|}.

Definition demo_world : World := {|
  streams := [ {| content := [Byte.x89; Byte.x50; Byte.x4e; Byte.x47]; pos := 2 |} ];
  files := {[ "/home/user/cat.png" := [Byte.x01; Byte.x02; Byte.x03] ]};
  vfiles := ∅;
  pillow_installed := true;
  numpy_installed := true;
  pillow_imported := false
|}.

(** The grid [[0.0, 0.25], [0.5, 1.0]] as a list of lists of floats. *)
Definition demo_grid : ndarray := {|
  shape := [2; 2]%nat;
  buf := F64 [ S754_zero false;
               S754_finite false 4503599627370496 (-54);
               S754_finite false 4503599627370496 (-53);
               S754_finite false 4503599627370496 (-52) ]
|}.

(** The grid [[1, 2], [3, 4]] as a list of lists of ints. *)
Definition demo_int_grid : ndarray := {|
  shape := [2; 2]%nat;
  buf := I64 [1; 2; 3; 4]
|}.

(** The grid [[-1e308, 1e308]]: its range [2e308] exceeds the largest
    [float64]. *)
Definition overflow_grid : ndarray := {|
  shape := [1; 2]%nat;
  buf := F64 [ S754_finite true 5010420900022432 971;
               S754_finite false 5010420900022432 971 ]
|}.

(** An array object of a library of its own: it has [__array__] and
    [__array_interface__]. *)
Definition interface_array : PyObj :=
  PyObject "tensorlib.Grid"
    {| has___array__ := true; has_toarray := false; has___array_interface__ := true |}
    demo_int_grid.

(** The integer [7]: none of the capabilities, none of the image types. *)
Definition py_int : PyObj :=
  PyObject "int"
    {| has___array__ := false; has_toarray := false; has___array_interface__ := false |}
    {| shape := []; buf := I64 [7] |}.

Definition world_without_numpy : World := {|
  streams := streams demo_world;
  files := files demo_world;
  vfiles := vfiles demo_world;
  pillow_installed := true;
  numpy_installed := false;
  pillow_imported := false
|}.

Definition world_without_pillow : World := {|
  streams := streams demo_world;
  files := files demo_world;
  vfiles := vfiles demo_world;
  pillow_installed := false;
  numpy_installed := true;
  pillow_imported := false
|}.

(** A JPEG opened with [PIL.Image.open], and an image built in memory,
    whose [format] is [None]. *)
Definition demo_jpeg : PILImage :=
  {| pil_format := Some "JPEG"; pil_mode := "L"; pil_size := (2, 1)%nat;
     pil_pixels := [10; 20] |}.

Definition demo_new_image : PILImage :=
  {| pil_format := None; pil_mode := "L"; pil_size := (2, 1)%nat;
     pil_pixels := [10; 20] |}.

(** The world once [PIL] has been imported. *)
Definition world_with_pillow_imported : World := set_pillow_imported true demo_world.

(** A mask [[0, 1], [1, 0]] and the grid [[5, 5], [5, 5]]. *)
Definition demo_mask : ndarray := {| shape := [2; 2]%nat; buf := I64 [0; 1; 1; 0] |}.


Definition demo_empty_grid : ndarray := {| shape := [0]%nat; buf := F64 [] |}.

(** A [float32] array object of the three values nearest to 0.1, 0.2 and
    0.4 in single precision, and the [float64] array of the same three
    values. *)
Definition demo_float32_grid : ndarray := {|
  shape := [3]%nat;
  buf := FloatBuf Binary32
           [ S754_finite false 13421773 (-27);
             S754_finite false 13421773 (-26);
             S754_finite false 13421773 (-25) ]
|}.

Definition demo_widened_grid : ndarray := {|
  shape := [3]%nat;
  buf := F64 [ S754_finite false 7205759511166976 (-56);
               S754_finite false 7205759511166976 (-55);
               S754_finite false 7205759511166976 (-54) ]
|}.

Definition float32_array : PyObj :=
  PyObject "numpy.ndarray"
    {| has___array__ := true; has_toarray := false; has___array_interface__ := true |}
    demo_float32_grid.

(** A stack of two 2x2 grids with one channel each, of shape (2, 2, 1), and
    a zero-dimensional array: shapes the codec makes no image of. *)
Definition demo_single_channel : ndarray :=
  {| shape := [2; 2; 1]%nat; buf := I64 [1; 2; 3; 4] |}.

Definition demo_scalar_array : PyObj :=
  PyObject "numpy.ndarray"
    {| has___array__ := true; has_toarray := false; has___array_interface__ := true |}
    {| shape := []; buf := I64 [7] |}.

(** The grid [[inf, inf]]: constant, of no finite range. *)
Definition demo_infinite_grid : ndarray :=
  {| shape := [1; 2]%nat; buf := F64 [S754_infinity false; S754_infinity false] |}.

(** * Facts *)

(** ** Rounding, subtraction, division and multiplication in a binary format *)

Module IEEEFacts.

Lemma digits2_size m : digits2_pos m = Pos.size m.
Proof. induction m; simpl; congruence. Qed.

Lemma digits2_log2 m : Z.pos (digits2_pos m) = Z.log2 (Z.pos m) + 1.
Proof. rewrite digits2_size. destruct m; simpl; lia. Qed.

Lemma iter_pos_nat {A} (f : A -> A) p x :
  SpecFloat.iter_pos f p x = Nat.iter (Pos.to_nat p) f x.
Proof.
  revert x. induction p as [p IH|p IH|]; intros x; cbn [SpecFloat.iter_pos].
  - rewrite !IH, Pos2Nat.inj_xI, <- Nat.iter_add.
    replace (S (2 * Pos.to_nat p)) with (S (Pos.to_nat p + Pos.to_nat p)) by lia.
    symmetry. apply Nat.iter_succ_r.
  - rewrite !IH, Pos2Nat.inj_xO, <- Nat.iter_add. f_equal. lia.
  - reflexivity.
Qed.

Lemma shr_1_m r : 0 <= shr_m r -> shr_m (shr_1 r) = shr_m r / 2.
Proof.
  destruct r as [m r s]; simpl. intros Hm.
  destruct m as [|[p|p|]|p]; cbn [shr_m]; try lia; try reflexivity.
  - apply Z.div_unique with 1; lia.
  - apply Z.div_unique with 0; lia.
Qed.

Lemma shr_iter_m n r :
  0 <= shr_m r -> shr_m (Nat.iter n shr_1 r) = shr_m r / 2 ^ Z.of_nat n.
Proof.
  intros Hm. induction n as [|n IH].
  - simpl. now rewrite Z.div_1_r.
  - rewrite Nat2Z.inj_succ, Z.pow_succ_r by lia. simpl.
    rewrite shr_1_m.
    + rewrite IH. rewrite Z.div_div by lia. f_equal. lia.
    + rewrite IH. apply Z.div_pos; lia.
Qed.

Lemma shr_record_of_loc_m m l : shr_m (shr_record_of_loc m l) = m.
Proof. destruct l as [|[]]; reflexivity. Qed.

Lemma Zdigits2_log2 m : 0 < m -> Zdigits2 m = Z.log2 m + 1.
Proof. destruct m as [|p|p]; try lia. intros _. apply digits2_log2. Qed.

Lemma round_nearest_even_bounds m l :
  m <= round_nearest_even m l <= m + 1.
Proof. destruct l as [|[]]; simpl; try lia. destruct (Z.even m); lia. Qed.

Lemma shl_align_spec m e e' :
  exists mz ez, shl_align m e e' = (mz, ez) /\ ez = Z.min e e' /\
    Z.pos mz = Z.pos m * 2 ^ (e - ez).
Proof.
  unfold shl_align. destruct (e' - e) as [|d|d] eqn:Hd.
  - eexists _, _; split; [done|]. split; [lia|].
    replace (e - e) with 0 by lia. lia.
  - eexists _, _; split; [done|]. split; [lia|].
    replace (e - e) with 0 by lia. lia.
  - eexists _, _; split; [done|]. split; [lia|].
    change (Pos.iter xO m d) with (shift_pos d m).
    rewrite shift_pos_correct, Z.pow_pos_fold.
    replace (e - e') with (Z.pos d) by lia. lia.
Qed.

(** The facts that hold of every format: [p] is the precision, [E] the
    exponent of the infinities, [3 - E - p] the least exponent. *)
Section Format.
Variables p E : Z.
Hypothesis Hp : 1 <= p.

(** Shifting a mantissa down to its format exponent keeps it
    non-negative. *)
Lemma shr_fexp_nonneg m e l :
  0 <= m -> 0 <= shr_m (shr_fexp p E m e l).1.
Proof.
  intros Hm. unfold shr_fexp, shr.
  destruct (fexp p E (Zdigits2 m + e) - e) as [|q|q]; cbn [fst];
    rewrite ?shr_record_of_loc_m; try done.
  rewrite iter_pos_nat, shr_iter_m by (rewrite shr_record_of_loc_m; lia).
  rewrite shr_record_of_loc_m. apply Z.div_pos; lia.
Qed.

(** Rounding a non-negative mantissa never yields a NaN. *)
Lemma binary_round_aux_not_nan s m e l :
  0 <= m -> is_nan (binary_round_aux p E s m e l) = false.
Proof.
  intros Hm. unfold binary_round_aux.
  pose proof (shr_fexp_nonneg m e l Hm) as H1.
  destruct (shr_fexp p E m e l) as [r1 e1]. cbn [fst] in H1.
  pose proof (round_nearest_even_bounds (shr_m r1) (loc_of_shr_record r1)) as Hrne.
  set (m2 := round_nearest_even _ _) in *.
  pose proof (shr_fexp_nonneg m2 e1 loc_Exact ltac:(lia)) as H2.
  destruct (shr_fexp p E m2 e1 loc_Exact) as [r2 e2]. cbn [fst] in H2.
  destruct (shr_m r2) as [|q|q]; [reflexivity| |lia].
  now destruct (e2 <=? E - p).
Qed.

(** Shifting a positive mantissa down to its format exponent keeps it
    positive when the exponent is not below the least one. *)
Lemma shr_fexp_pos m e l :
  0 < m -> 3 - E - p <= e ->
  exists r e', shr_fexp p E m e l = (r, e') /\ 0 < shr_m r /\
    3 - E - p <= e' /\ e' <= Z.max e (Z.log2 m + 1 + e - p) /\
    Z.log2 (shr_m r) + e' = Z.log2 m + e.
Proof.
  intros Hm He. unfold shr_fexp, shr.
  rewrite Zdigits2_log2 by done.
  unfold fexp, SpecFloat.emin.
  destruct (Z.max (Z.log2 m + 1 + e - p) (3 - E - p) - e) as [|q|q] eqn:Hn.
  - eexists _, _; split; [done|]. rewrite shr_record_of_loc_m. lia.
  - eexists _, _; split; [done|].
    rewrite iter_pos_nat, shr_iter_m by (rewrite shr_record_of_loc_m; lia).
    rewrite shr_record_of_loc_m, positive_nat_Z.
    assert (Hq : Z.pos q = Z.log2 m + 1 - p) by lia.
    pose proof (Z.log2_spec m Hm) as [Hlo _].
    pose proof (Z.log2_nonneg m).
    rewrite <- Z.shiftr_div_pow2 by lia.
    assert (0 < Z.shiftr m (Z.pos q)).
    { rewrite Z.shiftr_div_pow2 by lia. apply Z.div_str_pos. split; [lia|].
      etrans; [|exact Hlo]. apply Z.pow_le_mono_r; lia. }
    rewrite Z.log2_shiftr by lia. lia.
  - eexists _, _; split; [done|]. rewrite shr_record_of_loc_m. lia.
Qed.

(** Rounding a positive mantissa whose exponent is not below the least one
    never yields a zero or a NaN. *)
Lemma binary_round_aux_shape s m e l :
  0 < m -> 3 - E - p <= e ->
  exists m' e',
    binary_round_aux p E s m e l
      = (if e' <=? E - p then S754_finite s m' e' else S754_infinity s)
    /\ e' <= Z.max e (Z.log2 m + 1 + e - p) + 1.
Proof.
  intros Hm He. unfold binary_round_aux.
  destruct (shr_fexp_pos m e l Hm He) as (r1 & e1 & -> & Hr1 & He1 & Hb1 & Hd1).
  pose proof (round_nearest_even_bounds (shr_m r1) (loc_of_shr_record r1)) as Hrne.
  set (m2 := round_nearest_even _ _) in *.
  destruct (shr_fexp_pos m2 e1 loc_Exact) as (r2 & e2 & -> & Hr2 & He2 & Hb2 & Hd2);
    [lia|lia|].
  destruct (shr_m r2) as [|q|q] eqn:Hq; try lia.
  exists q, e2. split; [reflexivity|].
  assert (Z.log2 m2 <= Z.log2 (shr_m r1) + 1).
  { etrans; [apply Z.log2_le_mono with (b := Z.succ (shr_m r1)); lia|].
    pose proof (Z.log2_succ_le (shr_m r1)). lia. }
  lia.
Qed.

Lemma binary_round_shape s m e :
  3 - E - p <= e ->
  exists m' e',
    binary_round p E s m e
      = (if e' <=? E - p then S754_finite s m' e' else S754_infinity s)
    /\ e' <= Z.max e (Z.log2 (Z.pos m) + 1 + e - p) + 1.
Proof.
  intros He. unfold binary_round.
  destruct (shl_align_spec m e (fexp p E (Z.pos (digits2_pos m) + e)))
    as (mz & ez & -> & Hez & Hmz).
  assert (3 - E - p <= ez /\ ez <= e) as [Hlo Hhi].
  { subst ez. unfold fexp, SpecFloat.emin. lia. }
  destruct (binary_round_aux_shape s (Z.pos mz) ez loc_Exact) as (m' & e' & -> & Hb);
    [lia|lia|].
  exists m', e'. split; [done|].
  rewrite Hmz, Z.log2_mul_pow2 in Hb by lia. lia.
Qed.

Lemma valid_finite_inv s m e :
  valid_binary p E (S754_finite s m e) = true ->
  Z.max (Z.log2 (Z.pos m) + 1 + e - p) (3 - E - p) = e /\ e <= E - p.
Proof.
  unfold valid_binary, bounded, canonical_mantissa, fexp, SpecFloat.emin.
  rewrite andb_true_iff, Z.eqb_eq, Z.leb_le, digits2_log2. lia.
Qed.

(** The quotient of a number or an infinity by a finite non-zero number is
    not a NaN. *)
Lemma div_not_nan x s m e :
  is_nan x = false -> is_nan (SFdiv p E x (S754_finite s m e)) = false.
Proof.
  destruct x as [sx|sx| |sx mx ex]; try done. intros _.
  unfold SFdiv, SFdiv_core_binary.
  set (m' := match ex - e - _ with 0 => _ | Z.pos _ => _ | Z.neg _ => _ end).
  assert (Hm' : 0 <= m').
  { subst m'. destruct (ex - e - _) as [|q|q]; try lia. apply Z.shiftl_nonneg. lia. }
  pose proof (Z.div_pos m' (Z.pos m) Hm' ltac:(lia)) as Hq. unfold Z.div in Hq.
  destruct (Z.div_eucl m' (Z.pos m)) as [q r]. now apply binary_round_aux_not_nan.
Qed.

(** The product of a number or an infinity and a finite non-zero number is
    not a NaN. *)
Lemma mul_not_nan x s m e :
  is_nan x = false -> is_nan (SFmul p E x (S754_finite s m e)) = false.
Proof.
  destruct x as [sx|sx| |sx mx ex]; try done. intros _.
  cbn [SFmul]. now apply binary_round_aux_not_nan.
Qed.

End Format.

(** Converting a non-zero 64-bit integer gives a finite non-zero float. *)
Lemma of_Z_nonzero z :
  z <> 0 -> - 2 ^ 64 < z < 2 ^ 64 -> exists s m e, of_Z z = S754_finite s m e.
Proof.
  intros Hz Hr. unfold of_Z, binary_normalize.
  destruct z as [|q|q]; [done| |].
  - destruct (binary_round_shape 53 1024 ltac:(lia) false q 0) as (m' & e' & -> & Hb);
      [lia|].
    assert (Z.log2 (Z.pos q) < 64) by (apply Z.log2_lt_pow2; lia).
    destruct (Z.leb_spec e' (1024 - 53)); [eauto|lia].
  - destruct (binary_round_shape 53 1024 ltac:(lia) true q 0) as (m' & e' & -> & Hb);
      [lia|].
    assert (Z.log2 (Z.pos q) < 64) by (apply Z.log2_lt_pow2; lia).
    destruct (Z.leb_spec e' (1024 - 53)); [eauto|lia].
Qed.

Lemma prec_pos f : 1 <= prec f.
Proof. destruct f; cbn; lia. Qed.

(** [x / x = 1] for every finite non-zero [x], in every format. *)
Lemma div_self f s m e : div f (S754_finite s m e) (S754_finite s m e) = one f.
Proof.
  unfold div, SFdiv, SFdiv_core_binary.
  replace (Zdigits2 (Z.pos m) + e - (Zdigits2 (Z.pos m) + e)) with 0 by lia.
  replace (e - e) with 0 by lia.
  assert (Hmin : Z.min (fexp (prec f) (emax f) 0) 0 = - prec f) by now destruct f.
  rewrite Hmin. replace (0 - - prec f) with (prec f) by lia.
  assert (Hsh : (match prec f with
                 | 0 => Z.pos m
                 | Z.pos _ => Z.shiftl (Z.pos m) (prec f)
                 | Z.neg _ => 0
                 end) = Z.pos m * 2 ^ prec f).
  { pose proof (prec_pos f). destruct (prec f) eqn:Hq; try lia.
    rewrite Z.shiftl_mul_pow2; lia. }
  rewrite Hsh.
  assert (Hdiv : Z.div_eucl (Z.pos m * 2 ^ prec f) (Z.pos m) = (2 ^ prec f, 0)).
  { pose proof (Z.div_eucl_eq (Z.pos m * 2 ^ prec f) (Z.pos m) ltac:(lia)) as Heq.
    pose proof (Z.mod_pos_bound (Z.pos m * 2 ^ prec f) (Z.pos m) ltac:(lia)) as Hmod.
    unfold Z.modulo in Hmod.
    destruct (Z.div_eucl (Z.pos m * 2 ^ prec f) (Z.pos m)) as [q r].
    assert (q = 2 ^ prec f) by nia. subst q. f_equal. lia. }
  rewrite Hdiv.
  assert (Hloc : new_location (Z.pos m) 0 = loc_Exact).
  { unfold new_location, new_location_even, new_location_odd.
    destruct (Z.even (Z.pos m)); reflexivity. }
  rewrite Hloc. destruct s, f; reflexivity.
Qed.

Local Ltac key_cases :=
  split; intros Hk; cbn in *;
  first [ done | discriminate | lia | exfalso; lia
        | injection Hk; intros; subst; first [done | lia | exfalso; lia] ].

Lemma ltb_key x y :
  is_finite x = true -> is_finite y = true ->
  SFltb x y = true <-> key_lt (key x) (key y).
Proof.
  unfold SFltb.
  destruct x as [sx|sx| |sx mx ex], y as [sy|sy| |sy my ey]; try discriminate;
    intros _ _; cbn [SFcompare key key_lt].
  - key_cases.
  - destruct sy; key_cases.
  - destruct sx; key_cases.
  - change (Pos.compare_cont Eq mx my) with (Pos.compare mx my).
    destruct sx, sy; try key_cases;
      destruct (Z.compare_spec ex ey); destruct (Pos.compare_spec mx my);
      key_cases.
Qed.

Lemma eqb_key x y :
  is_finite x = true -> is_finite y = true ->
  SFeqb x y = true <-> key x = key y.
Proof.
  unfold SFeqb.
  destruct x as [sx|sx| |sx mx ex], y as [sy|sy| |sy my ey]; try discriminate;
    intros _ _; cbn [SFcompare key].
  - key_cases.
  - destruct sy; key_cases.
  - destruct sx; key_cases.
  - change (Pos.compare_cont Eq mx my) with (Pos.compare mx my).
    destruct sx, sy; try key_cases;
      destruct (Z.compare_spec ex ey); destruct (Pos.compare_spec mx my);
      try key_cases; subst; done.
Qed.

Lemma eqb_refl x : is_finite x = true -> SFeqb x x = true.
Proof. intros Hx. now apply eqb_key. Qed.

(** A zero difference: IEEE subtraction of equal finite values. *)
Lemma sub_eq f x y :
  is_finite x = true -> is_finite y = true -> SFeqb x y = true ->
  is_zero (sub f x y) = true.
Proof.
  intros Hx Hy Heq. apply eqb_key in Heq; [|done..].
  destruct x as [sx|sx| |sx mx ex], y as [sy|sy| |sy my ey]; try discriminate.
  - destruct sx, sy; reflexivity.
  - destruct sy; discriminate.
  - destruct sx; discriminate.
  - assert (sx = sy /\ mx = my /\ ex = ey) as (-> & -> & ->).
    { destruct sx, sy; cbn in Heq; injection Heq; intros; repeat split; lia. }
    unfold sub, SFsub. rewrite Z.min_id.
    destruct (shl_align_spec my ey ey) as (mz & ez & -> & _ & _).
    cbn [fst]. rewrite Z.sub_diag. reflexivity.
Qed.

(** IEEE subtraction of two different finite values is never a zero
    (gradual underflow) and never a NaN. *)
Lemma sub_neq f x y :
  valid f x = true -> valid f y = true ->
  is_finite x = true -> is_finite y = true -> SFeqb x y = false ->
  is_nonzero (sub f x y) = true.
Proof.
  intros Vx Vy Hx Hy Hne.
  assert (Hk : key x <> key y).
  { intros Hk. apply eqb_key in Hk; [congruence|done..]. }
  pose proof (prec_pos f) as Hp.
  destruct x as [sx|sx| |sx mx ex], y as [sy|sy| |sy my ey]; try discriminate.
  - reflexivity.
  - reflexivity.
  - apply (valid_finite_inv _ _ sx) in Vx as [Cx _].
    apply (valid_finite_inv _ _ sy) in Vy as [Cy _].
    unfold sub, SFsub.
    destruct (shl_align_spec mx ex (Z.min ex ey)) as (ax & ez & -> & Hez & Hax).
    destruct (shl_align_spec my ey (Z.min ex ey)) as (ay & ez' & -> & Hez' & Hay).
    cbn [fst].
    set (z := cond_Zopp sx (Z.pos ax) - cond_Zopp sy (Z.pos ay)).
    assert (Hz : z <> 0).
    { intros Hz. apply Hk. subst z.
      assert (sx = sy /\ Z.pos ax = Z.pos ay) as [-> Hxy]
        by (destruct sx, sy; cbn in Hz; split; (done || lia)).
      assert (Hlog : Z.log2 (Z.pos ax) = Z.log2 (Z.pos ay)) by congruence.
      rewrite Hax, Hay, !Z.log2_mul_pow2 in Hlog by lia.
      assert (ex = ey) by lia. subst ey.
      assert (E : ex - ez = 0) by lia. assert (E' : ex - ez' = 0) by lia.
      rewrite Hax, Hay, E, E' in Hxy.
      assert (mx = my) by lia. subst. done. }
    unfold binary_normalize.
    destruct z as [|q|q]; [done| |].
    + destruct (binary_round_shape (prec f) (emax f) Hp false q (Z.min ex ey))
        as (m' & e' & -> & _); [lia|].
      destruct (e' <=? emax f - prec f); reflexivity.
    + destruct (binary_round_shape (prec f) (emax f) Hp true q (Z.min ex ey))
        as (m' & e' & -> & _); [lia|].
      destruct (e' <=? emax f - prec f); reflexivity.
Qed.

End IEEEFacts.

Import IEEEFacts.
(** ** Reductions of an array and the divisor of the normalisation *)

Lemma key_nlt_trans a b c :
  ~ key_lt b a -> ~ key_lt c b -> ~ key_lt c a.
Proof.
  destruct a as [[a1 a2] a3], b as [[b1 b2] b3], c as [[c1 c2] c3].
  unfold key_lt. lia.
Qed.

Lemma key_nlt_antisym a b : ~ key_lt a b -> ~ key_lt b a -> a = b.
Proof.
  destruct a as [[a1 a2] a3], b as [[b1 b2] b3]. unfold key_lt. intros Hab Hba.
  assert (a1 = b1) by lia. assert (a2 = b2) by lia. assert (a3 = b3) by lia.
  congruence.
Qed.

Lemma key_lt_irrefl a : ~ key_lt a a.
Proof. destruct a as [[a1 a2] a3]. unfold key_lt. lia. Qed.

Lemma fminimum_finite a b :
  is_finite a = true -> is_finite b = true ->
  fminimum a b = if SFltb b a then b else a.
Proof. destruct a, b; try discriminate; reflexivity. Qed.

Lemma fmaximum_finite a b :
  is_finite a = true -> is_finite b = true ->
  fmaximum a b = if SFltb a b then b else a.
Proof. destruct a, b; try discriminate; reflexivity. Qed.

(** [min()] returns an element no other element is less than. *)
Lemma fold_fminimum_spec xs x :
  is_finite x = true -> (forall y, In y xs -> is_finite y = true) ->
  In (fold_left fminimum xs x) (x :: xs) /\
  forall y, In y (x :: xs) -> ~ key_lt (key y) (key (fold_left fminimum xs x)).
Proof.
  revert x. induction xs as [|z xs IH]; intros x Hx Hxs; cbn [fold_left].
  - split; [now left|]. intros y [<-|[]]. apply key_lt_irrefl.
  - assert (Hz : is_finite z = true) by (apply Hxs; now left).
    rewrite fminimum_finite by done.
    pose proof (ltb_key z x Hz Hx) as Hlt.
    destruct (SFltb z x) eqn:Hzx.
    + destruct (IH z Hz) as [Hin Hle]; [intros; apply Hxs; now right|].
      split; [destruct Hin as [<-|Hin]; [right; now left|right; now right]|].
      intros y [<-|Hy]; [|now apply Hle].
      apply key_nlt_trans with (key z); [apply Hle; now left|].
      assert (key_lt (key z) (key x)) as Hk by now apply Hlt.
      revert Hk. generalize (key z) (key x). intros [[a1 a2] a3] [[b1 b2] b3].
      unfold key_lt. lia.
    + destruct (IH x Hx) as [Hin Hle]; [intros; apply Hxs; now right|].
      split; [destruct Hin as [<-|Hin]; [now left|right; now right]|].
      intros y [<-|[<-|Hy]].
      * apply Hle; now left.
      * apply key_nlt_trans with (key x); [apply Hle; now left|].
        intros Hk. apply Hlt in Hk. congruence.
      * apply Hle; now right.
Qed.

(** [max()] returns an element that is less than no other element. *)
Lemma fold_fmaximum_spec xs x :
  is_finite x = true -> (forall y, In y xs -> is_finite y = true) ->
  In (fold_left fmaximum xs x) (x :: xs) /\
  forall y, In y (x :: xs) -> ~ key_lt (key (fold_left fmaximum xs x)) (key y).
Proof.
  revert x. induction xs as [|z xs IH]; intros x Hx Hxs; cbn [fold_left].
  - split; [now left|]. intros y [<-|[]]. apply key_lt_irrefl.
  - assert (Hz : is_finite z = true) by (apply Hxs; now left).
    rewrite fmaximum_finite by done.
    pose proof (ltb_key x z Hx Hz) as Hlt.
    destruct (SFltb x z) eqn:Hxz.
    + destruct (IH z Hz) as [Hin Hle]; [intros; apply Hxs; now right|].
      split; [destruct Hin as [<-|Hin]; [right; now left|right; now right]|].
      intros y [<-|Hy]; [|now apply Hle].
      apply key_nlt_trans with (key z); [|apply Hle; now left].
      assert (key_lt (key x) (key z)) as Hk by now apply Hlt.
      revert Hk. generalize (key z) (key x). intros [[a1 a2] a3] [[b1 b2] b3].
      unfold key_lt. lia.
    + destruct (IH x Hx) as [Hin Hle]; [intros; apply Hxs; now right|].
      split; [destruct Hin as [<-|Hin]; [now left|right; now right]|].
      intros y [<-|[<-|Hy]].
      * apply Hle; now left.
      * apply key_nlt_trans with (key x); [|apply Hle; now left].
        intros Hk. apply Hlt in Hk. congruence.
      * apply Hle; now right.
Qed.

Lemma fold_Zmin_spec xs x :
  In (fold_left Z.min xs x) (x :: xs) /\
  forall y, In y (x :: xs) -> fold_left Z.min xs x <= y.
Proof.
  revert x. induction xs as [|z xs IH]; intros x; cbn [fold_left].
  - split; [now left|]. intros y [<-|[]]. lia.
  - destruct (IH (Z.min x z)) as [Hin Hle]. split.
    + destruct Hin as [Hin|Hin]; [|right; now right].
      rewrite <- Hin. destruct (Z.min_spec x z) as [[_ ->]|[_ ->]];
        [now left|right; now left].
    + intros y [<-|[<-|Hy]].
      * specialize (Hle (Z.min x z) (or_introl eq_refl)). lia.
      * specialize (Hle (Z.min x z) (or_introl eq_refl)). lia.
      * apply Hle. now right.
Qed.

Lemma fold_Zmax_spec xs x :
  In (fold_left Z.max xs x) (x :: xs) /\
  forall y, In y (x :: xs) -> y <= fold_left Z.max xs x.
Proof.
  revert x. induction xs as [|z xs IH]; intros x; cbn [fold_left].
  - split; [now left|]. intros y [<-|[]]. lia.
  - destruct (IH (Z.max x z)) as [Hin Hle]. split.
    + destruct Hin as [Hin|Hin]; [|right; now right].
      rewrite <- Hin. destruct (Z.max_spec x z) as [[_ ->]|[_ ->]];
        [right; now left|now left].
    + intros y [<-|[<-|Hy]].
      * specialize (Hle (Z.max x z) (or_introl eq_refl)). lia.
      * specialize (Hle (Z.max x z) (or_introl eq_refl)). lia.
      * apply Hle. now right.
Qed.

Lemma float_min_max f x0 r :
  numeric (FloatBuf f (x0 :: r)) ->
  let lo := fold_left fminimum r x0 in
  let hi := fold_left fmaximum r x0 in
  In lo (x0 :: r) /\ In hi (x0 :: r) /\
  (SFeqb hi lo = true <-> constant (FloatBuf f (x0 :: r))).
Proof.
  intros Hnum lo hi. cbn [numeric] in Hnum.
  assert (Hfin : forall y, In y (x0 :: r) -> is_finite y = true)
    by (intros y Hy; now apply Hnum).
  destruct (fold_fminimum_spec r x0) as [Hlo Hmin];
    [apply Hfin; now left|intros; apply Hfin; now right|].
  destruct (fold_fmaximum_spec r x0) as [Hhi Hmax];
    [apply Hfin; now left|intros; apply Hfin; now right|].
  fold lo in Hlo, Hmin. fold hi in Hhi, Hmax.
  split; [done|]. split; [done|]. split.
  - intros Heq. apply eqb_key in Heq; [|now apply Hfin..].
    assert (Hall : forall y, In y (x0 :: r) -> key y = key lo).
    { intros y Hy. apply key_nlt_antisym; [now apply Hmin|].
      rewrite <- Heq. now apply Hmax. }
    intros x y Hx Hy. apply eqb_key; [now apply Hfin..|].
    now rewrite (Hall x), (Hall y).
  - intros Hconst. now apply Hconst.
Qed.

Lemma int_min_max t x0 r :
  let lo := fold_left Z.min r x0 in
  let hi := fold_left Z.max r x0 in
  In lo (x0 :: r) /\ In hi (x0 :: r) /\ lo <= hi /\
  (hi = lo <-> constant (IntBuf t (x0 :: r))).
Proof.
  intros lo hi.
  destruct (fold_Zmin_spec r x0) as [Hlo Hmin].
  destruct (fold_Zmax_spec r x0) as [Hhi Hmax].
  fold lo in Hlo, Hmin. fold hi in Hhi, Hmax.
  split; [done|]. split; [done|]. split; [now apply Hmin|]. split.
  - intros Heq x y Hx Hy.
    pose proof (Hmin x Hx). pose proof (Hmax x Hx).
    pose proof (Hmin y Hy). pose proof (Hmax y Hy). lia.
  - intros Hconst. now apply Hconst.
Qed.

Lemma int_bounds t : int_lo t <= 0 < int_hi t.
Proof. destruct t; cbn [int_lo int_hi]; lia. Qed.

(** A difference of two values of an integer dtype wraps to zero only when
    it is zero. *)
Lemma wrap_diff_zero t x y :
  int_lo t <= x < int_hi t -> int_lo t <= y < int_hi t ->
  wrap t (x - y) = 0 <-> x = y.
Proof.
  intros Hx Hy. pose proof (int_bounds t) as Hb. split.
  - unfold wrap. intros Hw.
    set (n := int_hi t - int_lo t) in *.
    assert (Hmod : (x - y - int_lo t) mod n = - int_lo t) by lia.
    pose proof (Z.div_mod (x - y - int_lo t) n ltac:(lia)) as Hdm.
    rewrite Hmod in Hdm.
    assert ((x - y - int_lo t) / n = 0) by nia. nia.
  - intros ->. rewrite Z.sub_diag. unfold wrap. rewrite Z.mod_small; lia.
Qed.

Lemma wrap_range t z : int_lo t <= wrap t z < int_hi t.
Proof.
  pose proof (int_bounds t) as Hb. unfold wrap.
  pose proof (Z.mod_pos_bound (z - int_lo t) (int_hi t - int_lo t) ltac:(lia)). lia.
Qed.

Lemma wrap_64_bits t z : - 2 ^ 64 < wrap t z < 2 ^ 64.
Proof. pose proof (wrap_range t z). destruct t; cbn [int_lo int_hi] in *; lia. Qed.

Lemma is_zero_nonzero x : is_zero x = true -> is_nonzero x = true -> False.
Proof. destruct x; discriminate. Qed.

Lemma is_zero_not_nan x : is_zero x = true -> is_nan x = false.
Proof. now destruct x. Qed.

Lemma is_nonzero_not_nan x : is_nonzero x = true -> is_nan x = false.
Proof. now destruct x. Qed.

(** The difference of two numbers of a format is not a NaN. *)
Lemma sub_not_nan f x y :
  valid f x = true -> valid f y = true ->
  is_finite x = true -> is_finite y = true -> is_nan (sub f x y) = false.
Proof.
  intros Vx Vy Fx Fy. destruct (SFeqb x y) eqn:Heq.
  - now apply is_zero_not_nan, sub_eq.
  - now apply is_nonzero_not_nan, sub_neq.
Qed.

Lemma of_Z_not_nan z : - 2 ^ 64 < z < 2 ^ 64 -> is_nan (of_Z z) = false.
Proof.
  intros Hz. destruct (Z.eq_dec z 0) as [->|Hne]; [reflexivity|].
  destruct (of_Z_nonzero z Hne Hz) as (s & m & e & ->). reflexivity.
Qed.

(** The divisor of the normalisation of a non-empty grid of numbers: it
    is a zero exactly when the grid is constant, and neither a zero nor a
    NaN otherwise. *)
Lemma divisor_spec a :
  nonempty a -> numeric a ->
  exists d, divisor a = Some d /\
    (scalar_is_zero d = true <-> constant a) /\
    (~ constant a -> scalar_is_nonzero d = true).
Proof.
  destruct a as [f [|x0 r]|t [|x0 r]]; cbn [nonempty]; try done; intros _ Hnum.
  - destruct (float_min_max f x0 r Hnum) as (Hlo & Hhi & Hc).
    set (lo := fold_left fminimum r x0) in *.
    set (hi := fold_left fmaximum r x0) in *.
    exists (SFloat (sub f hi lo)). split; [reflexivity|].
    destruct (Hnum lo Hlo) as [Vlo Flo], (Hnum hi Hhi) as [Vhi Fhi].
    cbn [scalar_is_zero scalar_is_nonzero to_float].
    destruct (SFeqb hi lo) eqn:Heq.
    + split; [split; [intros _; now apply Hc|intros _; now apply sub_eq]|].
      intros Hn. destruct Hn. now apply Hc.
    + pose proof (sub_neq f hi lo Vhi Vlo Fhi Flo Heq) as Hnz. split; [|done].
      split.
      * intros Hz. destruct (is_zero_nonzero _ Hz Hnz).
      * intros Hconst. apply Hc in Hconst. discriminate.
  - destruct (int_min_max t x0 r) as (Hlo & Hhi & Hle & Hc).
    set (lo := fold_left Z.min r x0) in *.
    set (hi := fold_left Z.max r x0) in *.
    exists (SInt (wrap t (hi - lo))). split; [reflexivity|].
    cbn [scalar_is_zero scalar_is_nonzero].
    pose proof (wrap_diff_zero t hi lo (Hnum hi Hhi) (Hnum lo Hlo)) as Hw.
    rewrite Z.eqb_eq. split; [now rewrite Hw|].
    intros Hn. apply negb_true_iff, Z.eqb_neq. intros Hz. apply Hn, Hc, Hw, Hz.
Qed.

(** ** The normalisation, element by element *)

Lemma quotients_float f x0 r :
  let lo := fold_left fminimum r x0 in
  let hi := fold_left fmaximum r x0 in
  quotients (FloatBuf f (x0 :: r))
  = Some (map (fun x => div f (sub f x lo) (sub f hi lo)) (x0 :: r)).
Proof.
  intros lo hi. unfold quotients, divisor, np_true_divide.
  cbn [np_min np_max mbind option_bind np_sub to_floats scalar_sub to_float
       result_format].
  now rewrite map_map.
Qed.

Lemma quotients_int t x0 r :
  let lo := fold_left Z.min r x0 in
  let hi := fold_left Z.max r x0 in
  quotients (IntBuf t (x0 :: r))
  = Some (map (fun x => div Binary64 (of_Z (wrap t (x - lo))) (of_Z (wrap t (hi - lo))))
            (x0 :: r)).
Proof.
  intros lo hi. unfold quotients, divisor, np_true_divide.
  cbn [np_min np_max mbind option_bind np_sub to_floats scalar_sub to_float
       result_format].
  now rewrite !map_map.
Qed.

Lemma min_max_scale_float f x0 r :
  let lo := fold_left fminimum r x0 in
  let hi := fold_left fmaximum r x0 in
  min_max_scale (FloatBuf f (x0 :: r))
  = Some (map (fun x => mul f (div f (sub f x lo) (sub f hi lo)) (f255 f)) (x0 :: r)).
Proof.
  intros lo hi. unfold min_max_scale. rewrite quotients_float.
  cbn [mbind option_bind result_format]. unfold np_mul. now rewrite map_map.
Qed.

Lemma min_max_scale_int t x0 r :
  let lo := fold_left Z.min r x0 in
  let hi := fold_left Z.max r x0 in
  min_max_scale (IntBuf t (x0 :: r))
  = Some (map (fun x => mul Binary64
                          (div Binary64 (of_Z (wrap t (x - lo))) (of_Z (wrap t (hi - lo))))
                          (f255 Binary64))
            (x0 :: r)).
Proof.
  intros lo hi. unfold min_max_scale. rewrite quotients_int.
  cbn [mbind option_bind result_format]. unfold np_mul. now rewrite map_map.
Qed.

(** A constant grid: every quotient is [0/0], a NaN. *)
Lemma quotients_constant a :
  nonempty a -> numeric a -> constant a ->
  quotients a = Some (map (fun _ => S754_nan) (to_floats a)).
Proof.
  destruct a as [f [|x0 r]|t [|x0 r]]; cbn [nonempty]; try done; intros _ Hnum Hconst.
  - rewrite quotients_float. cbn [to_floats]. f_equal.
    destruct (float_min_max f x0 r Hnum) as (Hlo & Hhi & _).
    set (lo := fold_left fminimum r x0) in *.
    set (hi := fold_left fmaximum r x0) in *.
    apply map_ext_in. intros x Hx.
    assert (Hn : is_zero (sub f x lo) = true).
    { apply sub_eq; [now apply Hnum..|now apply Hconst]. }
    assert (Hd : is_zero (sub f hi lo) = true).
    { apply sub_eq; [now apply Hnum..|now apply Hconst]. }
    destruct (sub f x lo); try discriminate. destruct (sub f hi lo); try discriminate.
    reflexivity.
  - rewrite quotients_int. cbn [to_floats]. rewrite map_map. f_equal.
    destruct (int_min_max t x0 r) as (Hlo & Hhi & _ & _).
    set (lo := fold_left Z.min r x0) in *.
    set (hi := fold_left Z.max r x0) in *.
    apply map_ext_in. intros x Hx.
    rewrite (Hconst x lo Hx Hlo), (Hconst hi lo Hhi Hlo), Z.sub_diag.
    destruct t; reflexivity.
Qed.

(** A constant grid: every element becomes [0/0 * 255], a NaN. *)
Lemma min_max_scale_constant a :
  nonempty a -> numeric a -> constant a ->
  min_max_scale a = Some (map (fun _ => S754_nan) (to_floats a)).
Proof.
  intros Hne Hnum Hconst. unfold min_max_scale.
  rewrite quotients_constant by done. cbn [mbind option_bind]. unfold np_mul.
  now rewrite map_map.
Qed.

(** A non-constant grid of numbers whose range is representable: the
    divisor is a finite non-zero number, no quotient is a NaN, the minimum
    gives the quotient zero and the maximum the quotient one. *)
Lemma quotients_regular a :
  nonempty a -> numeric a -> ~ constant a -> range_finite a ->
  exists d q, divisor a = Some d /\ scalar_is_regular d = true /\
    quotients a = Some q /\ length q = np_size a /\
    (forall x, In x q -> is_nan x = false) /\
    (exists z, In z q /\ is_zero z = true) /\
    In (one (result_format a)) q.
Proof.
  intros Hne Hnum Hnc Hfin.
  destruct (divisor_spec a Hne Hnum) as (d & Hd & _ & Hnz).
  specialize (Hnz Hnc). unfold range_finite in Hfin. rewrite Hd in Hfin.
  exists d.
  destruct a as [f [|x0 r]|t [|x0 r]]; cbn [nonempty] in Hne; try done.
  - rewrite quotients_float.
    destruct (float_min_max f x0 r Hnum) as (Hlo & Hhi & _).
    set (lo := fold_left fminimum r x0) in *.
    set (hi := fold_left fmaximum r x0) in *.
    assert (d = SFloat (sub f hi lo)) as ->
      by (change (Some (SFloat (sub f hi lo)) = Some d) in Hd; congruence).
    cbn [scalar_is_nonzero] in Hnz. cbn [scalar_is_regular].
    destruct (Hnum lo Hlo) as [Vlo Flo].
    eexists. split; [done|]. split; [now rewrite Hnz, Hfin|].
    split; [reflexivity|]. split; [now rewrite length_map|].
    destruct (sub f hi lo) as [| | |s m e] eqn:Hdiv; try discriminate.
    split; [|split].
    + intros q Hq. apply in_map_iff in Hq as (x & <- & Hx).
      destruct (Hnum x Hx) as [Vx Fx].
      apply (div_not_nan (prec f) (emax f)). now apply sub_not_nan.
    + exists (div f (sub f lo lo) (S754_finite s m e)). split.
      * apply in_map_iff. now exists lo.
      * pose proof (sub_eq f lo lo Flo Flo (eqb_refl lo Flo)) as Hz.
        destruct (sub f lo lo); try discriminate. reflexivity.
    + apply in_map_iff. exists hi. split; [|done].
      rewrite Hdiv. apply div_self.
  - rewrite quotients_int.
    destruct (int_min_max t x0 r) as (Hlo & Hhi & _ & _).
    set (lo := fold_left Z.min r x0) in *.
    set (hi := fold_left Z.max r x0) in *.
    assert (d = SInt (wrap t (hi - lo))) as ->
      by (change (Some (SInt (wrap t (hi - lo))) = Some d) in Hd; congruence).
    cbn [scalar_is_nonzero] in Hnz. cbn [scalar_is_regular].
    eexists. split; [done|]. split; [done|].
    split; [reflexivity|]. split; [now rewrite length_map|].
    apply negb_true_iff, Z.eqb_neq in Hnz.
    destruct (of_Z_nonzero (wrap t (hi - lo)) Hnz (wrap_64_bits t _)) as (s & m & e & Hof).
    rewrite Hof. split; [|split].
    + intros q Hq. apply in_map_iff in Hq as (x & <- & Hx).
      apply (div_not_nan 53 1024). apply of_Z_not_nan, wrap_64_bits.
    + exists (div Binary64 (of_Z (wrap t (lo - lo))) (S754_finite s m e)). split.
      * apply in_map_iff. now exists lo.
      * rewrite Z.sub_diag. destruct t; reflexivity.
    + apply in_map_iff. exists hi. split; [|done].
      rewrite Hof. apply (div_self Binary64).
Qed.

Section Pixels.
Context `{Platform}.

Lemma to_uint8_range x : 0 <= to_uint8 x <= 255.
Proof.
  assert (Hmod : forall z, 0 <= z mod 256 <= 255)
    by (intros z; pose proof (Z.mod_pos_bound z 256); lia).
  destruct x as [s|s| |s m e]; cbn [to_uint8]; try apply Hmod; [lia|].
  assert (0 <= Z.shiftl (Z.pos m) e) by (apply Z.shiftl_nonneg; lia).
  destruct s.
  - destruct (Z.eqb_spec (Z.shiftl (Z.pos m) e) 0); [lia|apply Hmod].
  - destruct (Z.leb_spec (Z.shiftl (Z.pos m) e) 255); [lia|apply Hmod].
Qed.

(** The pixel of the largest element, for a finite non-zero range. *)
Lemma pixel_of_max f s m e :
  to_uint8 (mul f (div f (S754_finite s m e) (S754_finite s m e)) (f255 f)) = 255.
Proof. rewrite div_self. now destruct f. Qed.

(** The pixel of the smallest element, for a non-zero range. *)
Lemma pixel_of_min f n d :
  is_zero n = true -> is_nonzero d = true ->
  to_uint8 (mul f (div f n d) (f255 f)) = 0.
Proof.
  destruct n as [sn| | |]; try discriminate.
  destruct d as [|sd| |sd md ed]; try discriminate; now destruct f.
Qed.

(** A non-constant grid of numbers whose range is representable: 0 and 255
    both occur among the pixels. *)
Lemma array_pixels_span a :
  nonempty a -> numeric a -> ~ constant a -> range_finite a ->
  exists pixels, array_pixels a = Some pixels /\
    In 0 pixels /\ In 255 pixels /\ (forall p, In p pixels -> 0 <= p <= 255).
Proof.
  intros Hne Hnum Hnc Hfin.
  destruct (divisor_spec a Hne Hnum) as (d & Hd & _ & Hnz).
  specialize (Hnz Hnc). unfold range_finite in Hfin. rewrite Hd in Hfin.
  unfold array_pixels.
  destruct a as [f [|x0 r]|t [|x0 r]]; cbn [nonempty] in Hne; try done.
  - rewrite min_max_scale_float. cbn [fmap option_fmap option_map].
    destruct (float_min_max f x0 r Hnum) as (Hlo & Hhi & _).
    set (lo := fold_left fminimum r x0) in *.
    set (hi := fold_left fmaximum r x0) in *.
    assert (d = SFloat (sub f hi lo)) as ->
      by (change (Some (SFloat (sub f hi lo)) = Some d) in Hd; congruence).
    cbn [scalar_is_nonzero] in Hnz.
    eexists; split; [reflexivity|]. unfold astype_uint8. rewrite map_map.
    split; [|split].
    + apply in_map_iff. exists lo. split; [|done].
      apply pixel_of_min; [|done].
      apply sub_eq; [now apply Hnum..|apply eqb_refl; now apply Hnum].
    + apply in_map_iff. exists hi. split; [|done].
      destruct (sub f hi lo) as [| | |s m e]; try discriminate.
      apply pixel_of_max.
    + intros p Hp. apply in_map_iff in Hp as (x & <- & _). apply to_uint8_range.
  - rewrite min_max_scale_int. cbn [fmap option_fmap option_map].
    destruct (int_min_max t x0 r) as (Hlo & Hhi & _ & _).
    set (lo := fold_left Z.min r x0) in *.
    set (hi := fold_left Z.max r x0) in *.
    assert (d = SInt (wrap t (hi - lo))) as ->
      by (change (Some (SInt (wrap t (hi - lo))) = Some d) in Hd; congruence).
    cbn [scalar_is_nonzero] in Hnz. apply negb_true_iff, Z.eqb_neq in Hnz.
    destruct (of_Z_nonzero (wrap t (hi - lo)) Hnz (wrap_64_bits t _)) as (s & m & e & Hof).
    eexists; split; [reflexivity|]. unfold astype_uint8. rewrite map_map.
    split; [|split].
    + apply in_map_iff. exists lo. split; [|done].
      rewrite Z.sub_diag, Hof. now destruct t.
    + apply in_map_iff. exists hi. split; [|done].
      rewrite Hof. apply (pixel_of_max Binary64).
    + intros p Hp. apply in_map_iff in Hp as (x & <- & _). apply to_uint8_range.
Qed.

End Pixels.

(** ** The state monad and the byte streams *)

(** Writing to a stream just created leaves a stream that holds the data
    and stands at its end. *)
Lemma stream_write_new data w :
  stream_write (length (streams w)) data
    (set_streams (streams w ++ [ {| content := []; pos := 0 |} ]) w)
  = (Ok tt, set_streams (streams w ++ [ {| content := data; pos := length data |} ]) w).
Proof.
  unfold stream_write, with_stream, set_streams.
  cbn [streams]. rewrite list_lookup_middle by done. cbn [content pos].
  rewrite insert_app_r_alt by done. rewrite Nat.sub_diag. cbn [insert list_insert].
  rewrite drop_nil, app_nil_r. reflexivity.
Qed.

Lemma stream_seek_read ref st w :
  streams w !! ref = Some st ->
  (stream_seek ref 0 ≫= fun _ => stream_read ref) w
  = (Ok (content st),
     set_streams (<[ref := {| content := content st; pos := length (content st) |}]>
                    (streams w)) w).
Proof.
  intros Hst. unfold mbind, M_bind, stream_seek, stream_read, with_stream.
  rewrite Hst. cbn [streams set_streams].
  rewrite list_lookup_insert_eq by (now apply lookup_lt_Some in Hst).
  cbn [content pos]. rewrite drop_0, list_insert_insert_eq. reflexivity.
Qed.

(** ** [_normalize_image], branch by branch *)

Section Normalize.
Context `{Platform}.

Lemma numpy_array_toarray src :
  numpy_array (if hasattr src "toarray" then toarray src else src) = array_of src.
Proof. destruct src; try reflexivity. now destruct (hasattr _ _). Qed.

Lemma normalize_array_branch src w :
  is_array_like src = true -> _normalize_image src w = array_branch_result src w.
Proof.
  intros Hguard. unfold is_array_like in Hguard.
  unfold _normalize_image, array_branch_result. rewrite Hguard.
  cbv [mbind M_bind require import_PIL modify ret mret M_ret of_option of_result raise
       new_BytesIO].
  destruct (pillow_installed w) eqn:Hpil; [|reflexivity]. cbn [negb].
  destruct (hasattr src "__array_interface__") eqn:Hif; cbn [negb andb].
  - destruct (array_pixels (buf (array_of src))) as [pixels|] eqn:Hpx; [|reflexivity].
    destruct (fromarray (shape (array_of src)) pixels) as [img|e]; [|reflexivity].
    rewrite stream_write_new. reflexivity.
  - change (numpy_installed (set_pillow_imported true w)) with (numpy_installed w).
    destruct (numpy_installed w) eqn:Hnp; [|reflexivity]. cbn [negb].
    rewrite numpy_array_toarray.
    destruct (array_pixels (buf (array_of src))) as [pixels|] eqn:Hpx; [|reflexivity].
    destruct (fromarray (shape (array_of src)) pixels) as [img|e]; [|reflexivity].
    rewrite stream_write_new. reflexivity.
Qed.

(** [_Image.fromarray] makes an image of the shapes [(n,)], [(h, w)] and
    [(h, w, c)] with two to four channels, over the pixels it is given. *)
Lemma fromarray_image_shape shp pixels :
  image_shape shp = true ->
  exists mode size, fromarray shp pixels = Ok (frombuffer mode size pixels).
Proof.
  destruct shp as [|h [|w [|c [|d shp]]]]; try discriminate; intros Hc.
  - now eexists _, _.
  - now eexists _, _.
  - destruct c as [|[|[|[|[|c]]]]]; try discriminate; now eexists _, _.
Qed.

(** Of every other shape it makes none: [IndexError] on a zero-dimensional
    array, [TypeError] otherwise. *)
Lemma fromarray_other_shape shp pixels :
  image_shape shp = false ->
  fromarray shp pixels
  = Raise (match shp with
           | [] => IndexError "tuple index out of range"
           | _ => TypeError ("Cannot handle this data type: "
                             +:+ tuple_repr (1%nat :: 1%nat :: drop 2 shp) +:+ ", |u1")
           end).
Proof.
  destruct shp as [|h [|w [|c [|d shp]]]]; try discriminate; intros Hc.
  - reflexivity.
  - destruct c as [|[|[|[|[|c]]]]]; try discriminate; reflexivity.
  - unfold fromarray. cbn [drop fromarray_typemap].
    destruct c as [|[|[|[|[|c]]]]]; reflexivity.
Qed.

Lemma stream_seek_new data w :
  stream_seek (length (streams w)) 0
    (set_streams (streams w ++ [ {| content := data; pos := length data |} ]) w)
  = (Ok tt, set_streams (streams w ++ [ {| content := data; pos := 0 |} ]) w).
Proof.
  unfold stream_seek, with_stream, set_streams.
  cbn [streams]. rewrite list_lookup_middle by done. cbn [content pos].
  rewrite insert_app_r_alt by done. rewrite Nat.sub_diag. reflexivity.
Qed.

Lemma normalize_other_branch src w :
  is_array_like src = false -> _normalize_image src w = other_branch_result src w.
Proof.
  intros Hguard. unfold is_array_like in Hguard.
  unfold _normalize_image, other_branch_result. rewrite Hguard.
  cbv [mbind M_bind gets ret mret M_ret raise new_BytesIO].
  destruct (if pillow_imported w then as_Image src else None) as [im|].
  - rewrite stream_write_new, stream_seek_new. reflexivity.
  - now destruct (isinstance_image_type src).
Qed.

Lemma image_type_not_array_like src :
  isinstance_image_type src = true -> is_array_like src = false.
Proof. now destruct src. Qed.

Lemma image_type_not_Image src :
  isinstance_image_type src = true -> as_Image src = None.
Proof. now destruct src. Qed.

Lemma normalize_image_type src w :
  isinstance_image_type src = true -> _normalize_image src w = (Ok src, w).
Proof.
  intros Hty. rewrite normalize_other_branch by now apply image_type_not_array_like.
  unfold other_branch_result. rewrite Hty, image_type_not_Image by done.
  now destruct (pillow_imported w).
Qed.

End Normalize.

(** ** Strings, dictionaries and styles *)

Lemma append_assoc s1 s2 s3 : (s1 +:+ s2) +:+ s3 = s1 +:+ s2 +:+ s3.
Proof.
  induction s1 as [|c s1 IH]; [reflexivity|].
  change (String c ((s1 +:+ s2) +:+ s3) = String c (s1 +:+ s2 +:+ s3)).
  now rewrite IH.
Qed.

Lemma dict_get_set k k0 v0 d :
  dict_get k (dict_set k0 v0 d) = if String.eqb k k0 then Some v0 else dict_get k d.
Proof.
  induction d as [|[k' v'] d IH]; cbn [dict_set dict_get].
  - reflexivity.
  - destruct (String.eqb_spec k0 k') as [<-|Hne]; cbn [dict_get].
    + now destruct (String.eqb k k0).
    + rewrite IH. destruct (String.eqb_spec k k0) as [->|]; [|done].
      now destruct (String.eqb_spec k0 k').
Qed.

Lemma dict_get_None_not_in k d : dict_get k d = None <-> ~ In k d.*1.
Proof.
  induction d as [|[k' v'] d IH]; cbn [dict_get fmap list_fmap fst In].
  - tauto.
  - destruct (String.eqb_spec k k') as [->|Hne]; [split; [discriminate|tauto]|].
    rewrite IH. split; [intros Hn [?|?]; [congruence|tauto]|tauto].
Qed.

(** On a key collision the value of the update wins; other keys keep their
    value. *)
Lemma dict_get_update k d items :
  NoDup items.*1 ->
  dict_get k (dict_update d items)
  = (match dict_get k items with Some v => Some v | None => dict_get k d end).
Proof.
  unfold dict_update. revert d.
  induction items as [|[k0 v0] items IH]; intros d Hnd; cbn [fold_left dict_get fst snd].
  - reflexivity.
  - cbn [fmap list_fmap fst] in Hnd. apply NoDup_cons in Hnd as [Hk0 Hnd].
    rewrite IH by done. rewrite dict_get_set.
    destruct (String.eqb_spec k k0) as [->|Hne]; [|done].
    assert (dict_get k0 items = None) as ->; [|done].
    apply dict_get_None_not_in. intros Hin. apply Hk0. now apply list_elem_of_In.
Qed.

Lemma dict_set_In_ne k v k0 v0 d :
  k <> k0 -> In (k, v) (dict_set k0 v0 d) <-> In (k, v) d.
Proof.
  intros Hne. induction d as [|[k' v'] d IH]; cbn [dict_set].
  - cbn [In]. split; [intros [[= ? ?]|[]]; congruence|tauto].
  - destruct (String.eqb_spec k0 k') as [<-|Hne']; cbn [In].
    + split; (intros [[= ? ?]|?]; [congruence|tauto]).
    + rewrite IH. tauto.
Qed.

(** Items whose key the update does not set are those of the dictionary. *)
Lemma dict_update_In_other k v d items :
  dict_get k items = None ->
  In (k, v) (dict_update d items) <-> In (k, v) d.
Proof.
  unfold dict_update. revert d.
  induction items as [|[k0 v0] items IH]; intros d Hk; cbn [fold_left fst snd].
  - tauto.
  - cbn [dict_get] in Hk. destruct (String.eqb_spec k k0) as [->|Hne]; [discriminate|].
    rewrite IH by done. now apply dict_set_In_ne.
Qed.

Lemma create_style_In k v d : In (k, v) (create_style d) <-> In (k, Some v) d.
Proof.
  unfold create_style. rewrite <- !list_elem_of_In, list_elem_of_omap. split.
  - intros ([k' [v'|]] & Hin & Heq); cbn in Heq; [|discriminate].
    now injection Heq as -> ->.
  - intros Hin. now exists (k, Some v).
Qed.

(** ** [image], step by step *)

Section ImageFacts.
Context `{Platform}.

Lemma image_unfold src alt width height rounded style caption w :
  image src alt width height rounded style caption w
  = (match _normalize_image src w with
     | (Ok v, w1) =>
         match resolve_src v w1 with
         | (Ok u, w2) =>
             (Ok (image_html u alt (create_style (style_dict width height rounded style))
                    caption), w2)
         | (Raise e, w2) => (Raise e, w2)
         end
     | (Raise e, w1) => (Raise e, w1)
     end).
Proof.
  unfold image. cbv [mbind M_bind].
  destruct (_normalize_image src w) as [[v|e] w1]; [|reflexivity].
  destruct (resolve_src v w1) as [[u|e] w2]; [|reflexivity].
  now destruct caption.
Qed.

Lemma img_of_image_html u alt styles caption :
  img_of (image_html u alt styles caption) = Some (Img u alt styles).
Proof. now destruct caption. Qed.

(** Whenever [image] returns a fragment, its [<img>] carries the computed
    style. *)
Lemma image_Ok_inv src alt width height rounded style caption w h w' :
  image src alt width height rounded style caption w = (Ok h, w') ->
  exists v w1 u,
    _normalize_image src w = (Ok v, w1) /\ resolve_src v w1 = (Ok u, w') /\
    img_of h = Some (Img u alt (create_style (style_dict width height rounded style))).
Proof.
  rewrite image_unfold.
  destruct (_normalize_image src w) as [[v|e] w1] eqn:Hn; [|discriminate].
  destruct (resolve_src v w1) as [[u|e] w2] eqn:Hr; [|discriminate].
  intros [= <- <-]. exists v, w1, u. split; [done|]. split; [done|].
  apply img_of_image_html.
Qed.

(** A byte stream is read from its start, wherever it stands. *)
Lemma resolve_src_stream src ref st w :
  src = PyBytesIO ref \/ src = PyBufferedReader ref ->
  streams w !! ref = Some st ->
  let url := vfile_url (vfiles w) (content st) None in
  resolve_src src w
  = (Ok (Some url),
     set_vfiles (<[url := content st]> (vfiles w))
       (set_streams
          (<[ref := {| content := content st; pos := length (content st) |}]> (streams w))
          w)).
Proof.
  intros Hsrc Hst url.
  pose proof (stream_seek_read ref st w Hst) as Hread.
  cbv [mbind M_bind] in Hread.
  destruct Hsrc as [-> | ->]; unfold resolve_src;
    cbv [mbind M_bind mo_data_image ret mret M_ret];
    destruct (stream_seek ref 0 w) as [[[]|e] w1]; try discriminate;
    rewrite Hread; reflexivity.
Qed.

(** A local file is read and registered under its suffix. *)
Lemma resolve_src_file src p data w :
  src = PyPath p \/ (exists s, src = PyStr s /\ p = expanduser s) ->
  files w !! p = Some data ->
  let url := vfile_url (vfiles w) data (Some (path_suffix p)) in
  resolve_src src w = (Ok (Some url), set_vfiles (<[url := data]> (vfiles w)) w).
Proof.
  intros Hsrc Hfile url.
  destruct Hsrc as [-> | (s & -> & ->)]; unfold resolve_src;
    cbv [mbind M_bind mo_data_image ret mret M_ret read_bytes isfile gets];
    rewrite ?bool_decide_eq_true_2 by eauto; rewrite Hfile; reflexivity.
Qed.

End ImageFacts.

(** * The properties of the specification *)

Section Claims.
Context `{Platform}.

Lemma nonconstant_nonempty a : ~ constant a -> nonempty a.
Proof.
  intros Hnc. destruct a as [f [|x xs]|t [|x xs]]; cbn [nonempty]; try done;
    destruct Hnc; intros x y [].
Qed.

(** C1, amended.  For every array-like input whose grid is a non-constant
    grid of numbers (canonical finite values of a floating-point dtype whose
    range [max - min] does not overflow, or values of an integer dtype) of a
    shape the codec makes an image of ([(n,)], [(h, w)], or [(h, w, c)] with
    two to four channels), with the image codec available and numpy
    available unless the input has [__array_interface__]:
    [_normalize_image] returns a freshly created byte stream that holds the
    codec's PNG encoding of the image over the grid transformed by
    [(grid - min) / (max - min) * 255] and cast to [uint8]; every pixel lies
    in [0, 255] and both 0 and 255 occur. *)
Theorem normalize_array_full_range (src : PyObj) (w : World) :
  is_array_like src = true ->
  pillow_installed w = true ->
  (hasattr src "__array_interface__" = false -> numpy_installed w = true) ->
  image_shape (shape (array_of src)) = true ->
  numeric (buf (array_of src)) ->
  ~ constant (buf (array_of src)) ->
  range_finite (buf (array_of src)) ->
  exists pixels mode size,
    array_pixels (buf (array_of src)) = Some pixels /\
    In 0 pixels /\ In 255 pixels /\ (forall p, In p pixels -> 0 <= p <= 255) /\
    fromarray (shape (array_of src)) pixels = Ok (frombuffer mode size pixels) /\
    let data := pil_save (frombuffer mode size pixels) "PNG" in
    streams w !! length (streams w) = None /\
    _normalize_image src w
    = (Ok (PyBytesIO (length (streams w))),
       set_streams (streams w ++ [ {| content := data; pos := length data |} ])
         (set_pillow_imported true w)).
Proof.
  intros Hguard Hpil Hnp Hshape Hnum Hnc Hfin.
  destruct (array_pixels_span (buf (array_of src))) as (pixels & Hpx & H0 & H255 & Hr);
    [now apply nonconstant_nonempty|done..|].
  destruct (fromarray_image_shape _ pixels Hshape) as (mode & size & Himg).
  exists pixels, mode, size. repeat (split; [done|]). split.
  - now apply lookup_ge_None.
  - rewrite normalize_array_branch by done. unfold array_branch_result.
    rewrite Hpil, Hpx, Himg. cbn [negb].
    destruct (hasattr src "__array_interface__"); [reflexivity|].
    now rewrite Hnp.
Qed.

(** C2, amended.  In the normalisation of a non-empty grid of numbers
    (canonical finite values of a floating-point dtype, or values of an
    integer dtype) the divisor [max - min] is a zero exactly when the grid
    is constant.  For a non-constant grid it is neither a zero nor a NaN,
    and when the range is representable it is a finite non-zero number and
    the division is an ordinary one: there is one quotient per element,
    none is a NaN, the minimum gives the quotient zero and the maximum the
    quotient one.  For a constant grid nothing guards the division: every
    quotient is the NaN [0/0], and the pixels are what the platform's
    conversion of a NaN leaves, not a zero fill. *)
Theorem divisor_zero_iff_constant (a : buffer) :
  nonempty a -> numeric a ->
  exists d, divisor a = Some d /\
    (scalar_is_zero d = true <-> constant a) /\
    (~ constant a -> scalar_is_nonzero d = true) /\
    (~ constant a -> range_finite a ->
       scalar_is_regular d = true /\
       exists q, quotients a = Some q /\ length q = np_size a /\
         (forall x, In x q -> is_nan x = false) /\
         (exists z, In z q /\ is_zero z = true) /\
         In (one (result_format a)) q) /\
    (constant a ->
       quotients a = Some (map (fun _ => S754_nan) (to_floats a)) /\
       min_max_scale a = Some (map (fun _ => S754_nan) (to_floats a)) /\
       array_pixels a
       = Some (map (fun _ => cast_undefined S754_nan mod 256) (to_floats a))).
Proof.
  intros Hne Hnum.
  destruct (divisor_spec a Hne Hnum) as (d & Hd & Hz & Hnz).
  exists d. repeat (split; [done|]). split.
  - intros Hnc Hfin.
    destruct (quotients_regular a Hne Hnum Hnc Hfin)
      as (d' & q & Hd' & Hreg & Hq & Hlen & Hnan & Hzero & Hone).
    assert (d' = d) as -> by congruence.
    split; [done|]. now exists q.
  - intros Hc.
    pose proof (min_max_scale_constant a Hne Hnum Hc) as Hs.
    split; [now apply quotients_constant|]. split; [done|].
    unfold array_pixels. rewrite Hs.
    cbn [fmap option_fmap option_map]. unfold astype_uint8. now rewrite map_map.
Qed.

(** C3, amended.  For every array-like input, [_normalize_image] fails with
    the missing-dependency error naming the image codec when the codec is
    unavailable, and with the one naming numpy when the codec is available,
    the input lacks [__array_interface__] and numpy is unavailable. *)
Theorem normalize_array_missing_dependency (src : PyObj) (w : World) :
  is_array_like src = true ->
  (pillow_installed w = false ->
   _normalize_image src w
   = (Raise (ModuleNotFoundError "PIL" "to render images from arrays in `mo.image`"), w))
  /\
  (pillow_installed w = true -> hasattr src "__array_interface__" = false ->
   numpy_installed w = false ->
   _normalize_image src w
   = (Raise (ModuleNotFoundError "numpy"
               "to render images from generic arrays in `mo.image`"),
      set_pillow_imported true w)).
Proof.
  intros Hguard. rewrite normalize_array_branch by done. unfold array_branch_result.
  split.
  - now intros ->.
  - now intros -> -> ->.
Qed.

(** C4.  For every input that is not a list, has neither [__array__] nor
    [toarray], is not an image object of the codec and is none of [str],
    [bytes], [io.BytesIO], [io.BufferedReader] and [Path]: the input is an
    object of some other class [cls], and [_normalize_image] raises the
    [ValueError] whose message names that class, as [type(src)] prints it,
    and changes nothing. *)
Theorem normalize_unsupported_type (src : PyObj) (w : World) :
  isinstance_list src = false ->
  hasattr src "__array__" = false ->
  hasattr src "toarray" = false ->
  isinstance_Image src = false ->
  isinstance_image_type src = false ->
  exists cls caps arr,
    src = PyObject cls caps arr /\
    _normalize_image src w
    = (Raise (ValueError ("Expected an image object, but got <class '"
                          +:+ cls +:+ "'> instead.")), w).
Proof.
  intros Hl Ha Ht Hi Hty.
  destruct src as [s|b|r|r|p|items|im|cls caps arr]; try discriminate.
  exists cls, caps, arr. split; [reflexivity|].
  rewrite normalize_other_branch by (unfold is_array_like; now rewrite Hl, Ha, Ht).
  unfold other_branch_result, unsupported_type.
  cbn [as_Image isinstance_image_type type_repr]. rewrite !append_assoc.
  now destruct (pillow_imported w).
Qed.

(** C5.  Pass-through identity: every input that already is a [str],
    [bytes], [io.BytesIO], [io.BufferedReader] or [Path] is returned
    unchanged, and nothing else changes; in particular
    [_normalize_image(b) == b] for every [bytes] object [b]. *)
Theorem normalize_pass_through (src : PyObj) (w : World) :
  isinstance_image_type src = true ->
  _normalize_image src w = (Ok src, w) /\
  (forall b, _normalize_image (PyBytes b) w = (Ok (PyBytes b), w)).
Proof.
  intros Hty. split; [now apply normalize_image_type|].
  intros b. now apply normalize_image_type.
Qed.

(** C6.  Whenever [_normalize_image] succeeds, the value it returns is of
    one of the image types ([str], [bytes], [io.BytesIO],
    [io.BufferedReader], [Path]) and is not array-like. *)
Theorem normalize_result_shape (src : PyObj) (w : World) (v : PyObj) (w' : World) :
  _normalize_image src w = (Ok v, w') ->
  isinstance_image_type v = true /\ is_array_like v = false.
Proof.
  destruct (is_array_like src) eqn:Hguard.
  - rewrite normalize_array_branch by done. unfold array_branch_result.
    destruct (negb (pillow_installed w)); [discriminate|].
    destruct (_ && _); [discriminate|].
    destruct (array_pixels _) as [pixels|]; [|discriminate].
    destruct (fromarray _ pixels); [|discriminate].
    now intros [= <- _].
  - rewrite normalize_other_branch by done. unfold other_branch_result.
    destruct (if pillow_imported w then as_Image src else None).
    + now intros [= <- _].
    + destruct (isinstance_image_type src) eqn:Hty; [|discriminate].
      intros [= <- _]. split; [done|]. now apply image_type_not_array_like.
Qed.

(** C7.  For every path of an existing local file, given as a [Path] or as
    a string that names the file after home-directory expansion,
    [image(p)] with no options reads the bytes of the file, registers them
    with the virtual-file store under the suffix of the path, and returns an
    [<img>] whose [src] is the URL the store then resolves to these bytes. *)
Theorem image_local_file (src : PyObj) (p : string) (data : bytes) (w : World) :
  src = PyPath p \/ (exists s, src = PyStr s /\ p = expanduser s) ->
  files w !! p = Some data ->
  let url := vfile_url (vfiles w) data (Some (path_suffix p)) in
  let w' := set_vfiles (<[url := data]> (vfiles w)) w in
  image src None None None false None None w = (Ok (Img (Some url) None []), w') /\
  vfiles w' !! url = Some data.
Proof.
  intros Hsrc Hfile url w'. split; [|apply lookup_insert_eq].
  rewrite image_unfold, normalize_image_type
    by (destruct Hsrc as [->|(s & -> & _)]; reflexivity).
  now rewrite (resolve_src_file src p data w Hsrc Hfile).
Qed.

(** C8, amended.  Whenever [image] returns a fragment and the explicit style
    overrides do not set [border-radius], the computed style of the [<img>]
    includes [border-radius: 4px] exactly when [rounded] is true. *)
Theorem image_rounded_border_radius (src : PyObj) (alt : option string)
    (width height : option Dim) (rounded : bool) (style : option PyDict)
    (caption : option string) (w : World) (h : Html) (w' : World) :
  dict_get "border-radius" (default [] style) = None ->
  image src alt width height rounded style caption w = (Ok h, w') ->
  exists im, img_of h = Some im /\
    (In ("border-radius", "4px") (img_style im) <-> rounded = true).
Proof.
  intros Hkey Himg.
  apply image_Ok_inv in Himg as (v & w1 & u & _ & _ & Him).
  eexists; split; [exact Him|]. cbn [img_style].
  rewrite create_style_In. unfold style_dict.
  rewrite dict_update_In_other by done. cbn. split.
  - intros [[= ?]|[[= ?]|[[= Hr]|[]]]]. now destruct rounded.
  - intros ->. right; right; now left.
Qed.

(** C9.  The dictionary of the style is built from the normalised width and
    height and the conditional [border-radius] entry, then updated with the
    explicit style overrides; the [<img>] carries its declarations.  On a key
    both have, the value of the override is the one kept; a key the overrides
    do not have keeps the computed value. *)
Theorem image_style_overrides_win (src : PyObj) (alt : option string)
    (width height : option Dim) (rounded : bool) (style : option PyDict)
    (caption : option string) (w : World) (h : Html) (w' : World) :
  dict_wf (default [] style) ->
  image src alt width height rounded style caption w = (Ok h, w') ->
  let computed := [ ("width", normalize_dimension width);
                    ("height", normalize_dimension height);
                    ("border-radius", if rounded then Some "4px" else None) ] in
  let merged := dict_update computed (default [] style) in
  (exists im, img_of h = Some im /\ img_style im = create_style merged) /\
  (forall k v, dict_get k (default [] style) = Some v -> dict_get k merged = Some v) /\
  (forall k, dict_get k (default [] style) = None ->
             dict_get k merged = dict_get k computed).
Proof.
  intros Hwf Himg computed merged.
  apply image_Ok_inv in Himg as (v0 & w1 & u & _ & _ & Him).
  split; [eexists; split; [exact Him|reflexivity]|].
  split.
  - intros k v Hk. unfold merged. now rewrite dict_get_update, Hk.
  - intros k Hk. unfold merged. now rewrite dict_get_update, Hk.
Qed.

(** C10.  Whenever normalisation yields a byte stream ([io.BytesIO] or
    [io.BufferedReader]), [image] seeks it to position 0 before reading: the
    bytes registered with the virtual-file store are the whole contents of
    the stream, wherever it stood.  A stream passed in is that stream; the
    stream of the array branch stands at its end, unrewound, and still
    renders all of its PNG. *)
Theorem image_stream_read_from_start (src v : PyObj) (ref : nat) (st : Stream)
    (alt : option string) (width height : option Dim) (rounded : bool)
    (style : option PyDict) (caption : option string) (w w1 : World) :
  _normalize_image src w = (Ok v, w1) ->
  v = PyBytesIO ref \/ v = PyBufferedReader ref ->
  streams w1 !! ref = Some st ->
  let url := vfile_url (vfiles w1) (content st) None in
  (exists h w',
     image src alt width height rounded style caption w = (Ok h, w') /\
     (exists im, img_of h = Some im /\ img_src im = Some url) /\
     vfiles w' = <[url := content st]> (vfiles w1) /\
     vfiles w' !! url = Some (content st)) /\
  (isinstance_image_type src = true -> v = src /\ w1 = w) /\
  (is_array_like src = true -> pos st = length (content st)).
Proof.
  intros Hnorm Hv Hst url. split; [|split].
  - rewrite image_unfold, Hnorm, (resolve_src_stream v ref st w1 Hv Hst).
    eexists _, _. split; [reflexivity|]. split; [|split].
    + eexists. split; [apply img_of_image_html|reflexivity].
    + reflexivity.
    + apply lookup_insert_eq.
  - intros Hty. rewrite normalize_image_type in Hnorm by done.
    now injection Hnorm as <- <-.
  - intros Hguard. rewrite normalize_array_branch in Hnorm by done.
    unfold array_branch_result in Hnorm.
    destruct (negb (pillow_installed w)); [discriminate|].
    destruct (_ && _); [discriminate|].
    destruct (array_pixels _) as [pixels|]; [|discriminate].
    destruct (fromarray _ pixels) as [img|e]; [|discriminate].
    injection Hnorm as <- <-.
    assert (ref = length (streams w)) as -> by (destruct Hv; congruence).
    cbn [streams set_streams] in Hst.
    rewrite list_lookup_middle in Hst by done. now injection Hst as <-.
Qed.

End Claims.

(** * Further properties of the two functions *)

Section Further.
Context `{Platform}.

Lemma normalize_Ok_image_type src w v w1 :
  _normalize_image src w = (Ok v, w1) -> isinstance_image_type v = true.
Proof.
  destruct (is_array_like src) eqn:Hguard.
  - rewrite normalize_array_branch by done. unfold array_branch_result.
    destruct (negb (pillow_installed w)); [discriminate|].
    destruct (_ && _); [discriminate|].
    destruct (array_pixels _) as [pixels|]; [|discriminate].
    destruct (fromarray _ pixels); [|discriminate].
    now intros [= <- _].
  - rewrite normalize_other_branch by done. unfold other_branch_result.
    destruct (if pillow_imported w then as_Image src else None).
    + now intros [= <- _].
    + destruct (isinstance_image_type src) eqn:Hty; [|discriminate].
      now intros [= <- _].
Qed.

(** X1.  [_normalize_image] is idempotent: applied to a value it returned,
    in the state it left, it returns that value and changes nothing. *)
Theorem normalize_idempotent (src v : PyObj) (w w1 : World) :
  _normalize_image src w = (Ok v, w1) ->
  _normalize_image v w1 = (Ok v, w1).
Proof.
  intros Hn. apply normalize_image_type. now apply normalize_Ok_image_type in Hn.
Qed.

Lemma normalize_keeps_store src w r w' :
  _normalize_image src w = (r, w') -> files w' = files w /\ vfiles w' = vfiles w.
Proof.
  destruct (is_array_like src) eqn:Hguard.
  - rewrite normalize_array_branch by done. unfold array_branch_result.
    repeat case_match; now intros [= <- <-].
  - rewrite normalize_other_branch by done. unfold other_branch_result.
    repeat case_match; now intros [= <- <-].
Qed.

(** X2.  What [_normalize_image] never does: it leaves the file system, the
    virtual-file store and the installed packages alone, and no stream that
    exists is changed.  It either returns its argument with the streams as
    they were, or a stream it created, the only new one; when it raises, no
    stream was created. *)
Theorem normalize_frame (src : PyObj) (w : World) (r : Result PyObj) (w' : World) :
  _normalize_image src w = (r, w') ->
  files w' = files w /\ vfiles w' = vfiles w /\
  pillow_installed w' = pillow_installed w /\ numpy_installed w' = numpy_installed w /\
  (forall i st, streams w !! i = Some st -> streams w' !! i = Some st) /\
  match r with
  | Ok v =>
      (v = src /\ streams w' = streams w) \/
      (v = PyBytesIO (length (streams w)) /\
       streams w !! length (streams w) = None /\
       length (streams w') = S (length (streams w)))
  | Raise _ => streams w' = streams w
  end.
Proof.
  destruct (is_array_like src) eqn:Hguard.
  - rewrite normalize_array_branch by done. unfold array_branch_result.
    destruct (negb (pillow_installed w)); [now intros [= <- <-]|].
    destruct (_ && _); [now intros [= <- <-]|].
    destruct (array_pixels _) as [pixels|]; [|now intros [= <- <-]].
    destruct (fromarray _ pixels); [|now intros [= <- <-]].
    intros [= <- <-]. cbn [files vfiles pillow_installed numpy_installed streams
                           set_streams set_pillow_imported].
    repeat (split; [done|]). split.
    + intros i st Hi. now apply lookup_app_l_Some.
    + right. split; [done|]. split; [now apply lookup_ge_None|].
      rewrite length_app. cbn. lia.
  - rewrite normalize_other_branch by done. unfold other_branch_result.
    destruct (if pillow_imported w then as_Image src else None).
    + intros [= <- <-]. cbn [files vfiles pillow_installed numpy_installed streams
                             set_streams].
      repeat (split; [done|]). split.
      * intros i st Hi. now apply lookup_app_l_Some.
      * right. split; [done|]. split; [now apply lookup_ge_None|].
        rewrite length_app. cbn. lia.
    + destruct (isinstance_image_type src); intros [= <- <-];
        repeat (split; [done|]); [now left|done].
Qed.

Lemma resolve_src_frame v w r w' :
  resolve_src v w = (r, w') ->
  files w' = files w /\
  match r with
  | Ok u =>
      vfiles w' = vfiles w \/
      exists url data, u = Some url /\ vfiles w' = <[url := data]> (vfiles w)
  | Raise _ => vfiles w' = vfiles w
  end.
Proof.
  unfold resolve_src.
  destruct v;
    cbv [mbind M_bind mo_data_image ret mret M_ret read_bytes isfile gets
         stream_seek stream_read with_stream];
    repeat case_match; simplify_eq/=; intros; simplify_eq/=; eauto 6.
Qed.

(** X3.  An image object of the codec (with [PIL] imported) is saved to a
    new stream in its own format, in PNG when it has none (its [format] is
    [None] or the empty string), and the stream is rewound; [image]
    registers exactly these bytes and shows them. *)
Theorem image_of_PIL_image (im : PILImage) (alt : option string)
    (width height : option Dim) (rounded : bool) (style : option PyDict)
    (caption : option string) (w : World) :
  pillow_imported w = true ->
  let data := pil_save im (format_or_PNG im) in
  let url := vfile_url (vfiles w) data None in
  (pil_format im = None -> format_or_PNG im = "PNG") /\
  (forall f, pil_format im = Some f -> f <> EmptyString -> format_or_PNG im = f) /\
  (pil_format im = Some EmptyString -> format_or_PNG im = "PNG") /\
  _normalize_image (PyImage im) w
  = (Ok (PyBytesIO (length (streams w))),
     set_streams (streams w ++ [ {| content := data; pos := 0 |} ]) w) /\
  exists w',
    image (PyImage im) alt width height rounded style caption w
    = (Ok (image_html (Some url) alt (create_style (style_dict width height rounded style))
             caption), w') /\
    vfiles w' = <[url := data]> (vfiles w) /\
    streams w' = streams w ++ [ {| content := data; pos := length data |} ].
Proof.
  intros Himp data url.
  assert (Hn : _normalize_image (PyImage im) w
               = (Ok (PyBytesIO (length (streams w))),
                  set_streams (streams w ++ [ {| content := data; pos := 0 |} ]) w)).
  { rewrite normalize_other_branch by reflexivity. unfold other_branch_result.
    now rewrite Himp. }
  split; [unfold format_or_PNG; now intros ->|].
  split.
  { unfold format_or_PNG. intros f -> Hf.
    destruct (String.eqb_spec f EmptyString); [done|reflexivity]. }
  split; [unfold format_or_PNG; now intros ->|]. split; [exact Hn|].
  rewrite image_unfold, Hn.
  erewrite (resolve_src_stream (PyBytesIO (length (streams w))) (length (streams w))
              {| content := data; pos := 0 |});
    [|now left|cbn [streams set_streams]; now apply list_lookup_middle].
  eexists. split; [reflexivity|]. split; [reflexivity|].
  cbn [streams set_streams set_vfiles content].
  rewrite insert_app_r_alt by done. now rewrite Nat.sub_diag.
Qed.

(** X4.  The caption only wraps: with a caption [image] returns the
    [<figure>] of the very [<img>] it returns without one, followed by the
    [<figcaption>] of the caption, and leaves the same state; without a
    caption it returns a bare [<img>]. *)
Theorem image_caption_wraps (src : PyObj) (alt : option string)
    (width height : option Dim) (rounded : bool) (style : option PyDict)
    (caption : string) (w : World) :
  image src alt width height rounded style (Some caption) w
  = (match image src alt width height rounded style None w with
     | (Ok img, w') =>
         (Ok (Figure
                [ img;
                  Figcaption [caption]
                    "color: var(--muted-foreground); text-align: center; margin-top: 0.5rem;" ]
                "display: flex; flex-direction: column;"), w')
     | (Raise e, w') => (Raise e, w')
     end) /\
  (forall h w', image src alt width height rounded style None w = (Ok h, w') ->
                exists u st, h = Img u alt st).
Proof.
  rewrite !image_unfold.
  destruct (_normalize_image src w) as [[v|e] w1]; [|split; [done|discriminate]].
  destruct (resolve_src v w1) as [[u|e] w2]; [|split; [done|discriminate]].
  split; [reflexivity|]. intros h w' [= <- <-]. now eexists _, _.
Qed.

(** X5.  [image] never writes to the file system; a call that raises has
    registered nothing with the virtual-file store, and a call that returns
    has registered at most one entry, whose URL is the [src] of the
    [<img>]. *)
Theorem image_store_frame (src : PyObj) (alt : option string)
    (width height : option Dim) (rounded : bool) (style : option PyDict)
    (caption : option string) (w : World) (r : Result Html) (w' : World) :
  image src alt width height rounded style caption w = (r, w') ->
  files w' = files w /\
  match r with
  | Ok h =>
      vfiles w' = vfiles w \/
      exists url data,
        img_src <$> img_of h = Some (Some url) /\ vfiles w' = <[url := data]> (vfiles w)
  | Raise _ => vfiles w' = vfiles w
  end.
Proof.
  rewrite image_unfold.
  destruct (_normalize_image src w) as [[v|e] w1] eqn:Hn;
    apply normalize_keeps_store in Hn as (Hf & Hv).
  - destruct (resolve_src v w1) as [[u|e] w2] eqn:Hr;
      apply resolve_src_frame in Hr as [Hf2 Hv2]; intros [= <- <-].
    + split; [congruence|]. rewrite img_of_image_html. cbn.
      destruct Hv2 as [Hv2|(url & data & -> & Hv2)]; [left; congruence|].
      right. exists url, data. split; [done|]. congruence.
    + split; congruence.
  - intros [= <- <-]. split; congruence.
Qed.

(** X6.  A file that does not exist: given as a [Path], [image] raises
    [FileNotFoundError] and changes nothing; given as a string, the string is
    taken for a URL and handed to [io_to_data_url] with the MIME type
    [image/png], nothing is read and nothing is registered. *)
Theorem image_missing_file (alt : option string) (width height : option Dim)
    (rounded : bool) (style : option PyDict) (caption : option string) (w : World) :
  (forall p, files w !! p = None ->
     image (PyPath p) alt width height rounded style caption w
     = (Raise (FileNotFoundError p), w)) /\
  (forall s, files w !! expanduser s = None ->
     image (PyStr s) alt width height rounded style caption w
     = (Ok (image_html (io_to_data_url (PyStr s) "image/png") alt
              (create_style (style_dict width height rounded style)) caption), w)).
Proof.
  split.
  - intros p Hp. rewrite image_unfold, normalize_image_type by reflexivity.
    unfold resolve_src. cbv [mbind M_bind read_bytes]. now rewrite Hp.
  - intros s Hs. rewrite image_unfold, normalize_image_type by reflexivity.
    unfold resolve_src. cbv [mbind M_bind isfile gets ret mret M_ret].
    rewrite bool_decide_eq_false_2; [reflexivity|].
    rewrite Hs. now intros [? ?].
Qed.

Lemma array_pixels_empty a : np_size a = 0%nat -> array_pixels a = None.
Proof. now destruct a as [f [|x xs]|t [|x xs]]. Qed.

Lemma array_pixels_nonempty a :
  np_size a <> 0%nat ->
  exists pixels, array_pixels a = Some pixels /\ length pixels = np_size a /\
    (forall p, In p pixels -> 0 <= p <= 255).
Proof.
  intros Hne. unfold array_pixels.
  destruct a as [f [|x xs]|t [|x xs]]; try done.
  - rewrite min_max_scale_float. eexists. split; [reflexivity|].
    unfold astype_uint8. split; [now rewrite !length_map|].
    intros p Hp. apply in_map_iff in Hp as (y & <- & _). apply to_uint8_range.
  - rewrite min_max_scale_int. eexists. split; [reflexivity|].
    unfold astype_uint8. split; [now rewrite !length_map|].
    intros p Hp. apply in_map_iff in Hp as (y & <- & _). apply to_uint8_range.
Qed.

(** X7.  An empty array-like input (with the dependencies available):
    [min()] of the zero-size array raises [ValueError]; no stream is created
    and [image] registers nothing. *)
Theorem image_of_empty_array (src : PyObj) (alt : option string)
    (width height : option Dim) (rounded : bool) (style : option PyDict)
    (caption : option string) (w : World) :
  is_array_like src = true ->
  pillow_installed w = true ->
  (hasattr src "__array_interface__" = false -> numpy_installed w = true) ->
  np_size (buf (array_of src)) = 0%nat ->
  _normalize_image src w = (Raise zero_size_error, set_pillow_imported true w) /\
  image src alt width height rounded style caption w
  = (Raise zero_size_error, set_pillow_imported true w).
Proof.
  intros Hguard Hpil Hnp Hsize.
  assert (Hn : _normalize_image src w
               = (Raise zero_size_error, set_pillow_imported true w)).
  { rewrite normalize_array_branch by done. unfold array_branch_result.
    rewrite Hpil, array_pixels_empty by done. cbn [negb].
    destruct (hasattr src "__array_interface__"); [reflexivity|].
    now rewrite Hnp. }
  split; [exact Hn|]. now rewrite image_unfold, Hn.
Qed.


(** X13.  A non-empty array-like input of any other shape is not rendered:
    with the dependencies available, [_Image.fromarray] raises [IndexError]
    on a zero-dimensional array and [TypeError], naming the dimensions
    after the second, otherwise; [_normalize_image] and [image] raise it, no
    stream is created and nothing is registered. *)
Theorem image_of_other_shape (src : PyObj) (alt : option string)
    (width height : option Dim) (rounded : bool) (style : option PyDict)
    (caption : option string) (w : World) :
  is_array_like src = true ->
  pillow_installed w = true ->
  (hasattr src "__array_interface__" = false -> numpy_installed w = true) ->
  np_size (buf (array_of src)) <> 0%nat ->
  image_shape (shape (array_of src)) = false ->
  let e := match shape (array_of src) with
           | [] => IndexError "tuple index out of range"
           | shp => TypeError ("Cannot handle this data type: "
                               +:+ tuple_repr (1%nat :: 1%nat :: drop 2 shp) +:+ ", |u1")
           end in
  _normalize_image src w = (Raise e, set_pillow_imported true w) /\
  image src alt width height rounded style caption w
  = (Raise e, set_pillow_imported true w).
Proof.
  intros Hguard Hpil Hnp Hsize Hshape e.
  destruct (array_pixels_nonempty _ Hsize) as (pixels & Hpx & _ & _).
  assert (Hn : _normalize_image src w = (Raise e, set_pillow_imported true w)).
  { rewrite normalize_array_branch by done. unfold array_branch_result.
    rewrite Hpil, Hpx, fromarray_other_shape by done. cbn [negb].
    assert (negb (hasattr src "__array_interface__") && negb (numpy_installed w) = false)
      as -> by (destruct (hasattr src "__array_interface__"); [done|now rewrite Hnp]).
    subst e. now destruct (shape (array_of src)). }
  split; [exact Hn|]. now rewrite image_unfold, Hn.
Qed.

(** X11.  [image] leaves a stream it was given at its end, with its contents
    as they were and every other stream untouched; shown again, the stream is
    read from its start again and the same bytes are registered. *)
Theorem image_of_stream_twice (src : PyObj) (ref : nat) (st : Stream)
    (alt : option string) (width height : option Dim) (rounded : bool)
    (style : option PyDict) (caption : option string) (w : World) :
  src = PyBytesIO ref \/ src = PyBufferedReader ref ->
  streams w !! ref = Some st ->
  exists h1 w1 h2 w2,
    image src alt width height rounded style caption w = (Ok h1, w1) /\
    streams w1 !! ref = Some {| content := content st; pos := length (content st) |} /\
    (forall j, j <> ref -> streams w1 !! j = streams w !! j) /\
    vfiles w1 = <[vfile_url (vfiles w) (content st) None := content st]> (vfiles w) /\
    image src alt width height rounded style caption w1 = (Ok h2, w2) /\
    vfiles w2 = <[vfile_url (vfiles w1) (content st) None := content st]> (vfiles w1).
Proof.
  intros Hsrc Hst.
  assert (Hty : isinstance_image_type src = true) by (destruct Hsrc as [->| ->]; done).
  pose proof (lookup_lt_Some _ _ _ Hst) as Hlt.
  set (st1 := {| content := content st; pos := length (content st) |}).
  set (w1 := set_vfiles (<[vfile_url (vfiles w) (content st) None := content st]> (vfiles w))
               (set_streams (<[ref := st1]> (streams w)) w)).
  assert (Hst1 : streams w1 !! ref = Some st1)
    by (cbn [w1 streams set_streams set_vfiles]; now apply list_lookup_insert_eq).
  eexists _, w1, _, _. split; [|split; [exact Hst1|split; [|split; [reflexivity|split]]]].
  - rewrite image_unfold, normalize_image_type by done.
    now rewrite (resolve_src_stream src ref st w Hsrc Hst).
  - intros j Hj. cbn [w1 streams set_streams set_vfiles].
    now apply list_lookup_insert_ne.
  - rewrite image_unfold, normalize_image_type by done.
    now rewrite (resolve_src_stream src ref st1 w1 Hsrc Hst1).
  - reflexivity.
Qed.

(** X12.  The presentation options have no part in resolving the source:
    two calls on the same source and state that differ in [alt], [width],
    [height], [rounded], [style] and [caption] raise the same exception or
    return an [<img>] with the same [src], and leave the same state. *)
Theorem image_options_independent (src : PyObj) (w : World)
    (alt1 alt2 : option string) (width1 width2 height1 height2 : option Dim)
    (rounded1 rounded2 : bool) (style1 style2 : option PyDict)
    (caption1 caption2 : option string) :
  match image src alt1 width1 height1 rounded1 style1 caption1 w,
        image src alt2 width2 height2 rounded2 style2 caption2 w with
  | (Ok h1, w1), (Ok h2, w2) =>
      w1 = w2 /\ img_src <$> img_of h1 = img_src <$> img_of h2
  | (Raise e1, w1), (Raise e2, w2) => e1 = e2 /\ w1 = w2
  | _, _ => False
  end.
Proof.
  rewrite !image_unfold.
  destruct (_normalize_image src w) as [[v|e] w1]; [|done].
  destruct (resolve_src v w1) as [[u|e] w2]; [|done].
  now rewrite !img_of_image_html.
Qed.

Lemma lookup_map {A B} (f : A -> B) (l : list A) (i : nat) :
  map f l !! i = f <$> l !! i.
Proof.
  revert i. induction l as [|x l IH]; intros [|i]; cbn; done.
Qed.

(** Subtracting from two finite floats of the same value gives the same
    float. *)
Lemma sub_eqb_l f x y z :
  is_finite x = true -> is_finite y = true -> is_finite z = true ->
  SFeqb x y = true -> SFeqb y z = false -> sub f x z = sub f y z.
Proof.
  intros Hx Hy Hz Heq Hne. apply eqb_key in Heq; [|done..].
  destruct x as [sx|sx| |sx mx ex], y as [sy|sy| |sy my ey]; try discriminate.
  - destruct z as [sz|sz| |sz mz ez]; try discriminate. reflexivity.
  - destruct sy; discriminate.
  - destruct sx; discriminate.
  - assert (sx = sy /\ mx = my /\ ex = ey) as (-> & -> & ->); [|done].
    destruct sx, sy; cbn in Heq; injection Heq; intros; repeat split; lia.
Qed.

Lemma fold_Zmin_shift c xs x :
  fold_left Z.min (map (fun y => y + c) xs) (x + c) = fold_left Z.min xs x + c.
Proof.
  revert x. induction xs as [|z xs IH]; intros x; cbn [map fold_left]; [done|].
  now rewrite Z.add_min_distr_r, IH.
Qed.

Lemma fold_Zmax_shift c xs x :
  fold_left Z.max (map (fun y => y + c) xs) (x + c) = fold_left Z.max xs x + c.
Proof.
  revert x. induction xs as [|z xs IH]; intros x; cbn [map fold_left]; [done|].
  now rewrite Z.add_max_distr_r, IH.
Qed.

(** X9.  In a non-constant grid of numbers whose range is representable,
    every element that has the value of the minimum becomes the pixel 0 and
    every element that has the value of the maximum becomes the pixel 255. *)
Theorem pixels_of_extremes (a : buffer) (lo hi : scalar) (pixels : list Z) (i : nat) :
  numeric a -> ~ constant a -> range_finite a ->
  np_min a = Some lo -> np_max a = Some hi ->
  array_pixels a = Some pixels ->
  (elem_eq a i lo -> pixels !! i = Some 0) /\
  (elem_eq a i hi -> pixels !! i = Some 255).
Proof.
  intros Hnum Hnc Hfin Hlo Hhi Hpx.
  pose proof (nonconstant_nonempty a Hnc) as Hne.
  destruct (divisor_spec a Hne Hnum) as (d & Hd & _ & Hnz).
  specialize (Hnz Hnc). unfold range_finite in Hfin. rewrite Hd in Hfin.
  unfold array_pixels in Hpx.
  destruct a as [f [|x0 r]|t [|x0 r]]; cbn [nonempty] in Hne; try done.
  - rewrite min_max_scale_float in Hpx. cbn [fmap option_fmap option_map] in Hpx.
    destruct (float_min_max f x0 r Hnum) as (Hinlo & Hinhi & Hc).
    set (l := fold_left fminimum r x0) in *.
    set (h := fold_left fmaximum r x0) in *.
    assert (lo = SFloat l) as -> by (change (Some (SFloat l) = Some lo) in Hlo; congruence).
    assert (hi = SFloat h) as -> by (change (Some (SFloat h) = Some hi) in Hhi; congruence).
    assert (d = SFloat (sub f h l)) as ->
      by (change (Some (SFloat (sub f h l)) = Some d) in Hd; congruence).
    cbn [scalar_is_nonzero] in Hnz.
    unfold astype_uint8 in Hpx. rewrite map_map in Hpx.
    assert (pixels
            = map (fun x => to_uint8 (mul f (div f (sub f x l) (sub f h l)) (f255 f)))
                (x0 :: r))
      as -> by congruence.
    assert (Hhl : SFeqb h l = false).
    { destruct (SFeqb h l) eqn:Heq; [|done]. destruct Hnc. now apply Hc. }
    destruct (Hnum l Hinlo) as [_ Fl], (Hnum h Hinhi) as [_ Fh].
    split; intros (x & Hx & Hxe); rewrite lookup_map, Hx; cbn; f_equal.
    + assert (Fx : is_finite x = true).
      { apply Hnum, list_elem_of_In, list_elem_of_lookup. eauto. }
      apply pixel_of_min; [|done]. now apply sub_eq.
    + assert (Fx : is_finite x = true).
      { apply Hnum, list_elem_of_In, list_elem_of_lookup. eauto. }
      rewrite (sub_eqb_l f x h l) by done.
      destruct (sub f h l) as [| | |s m e]; try discriminate. apply pixel_of_max.
  - rewrite min_max_scale_int in Hpx. cbn [fmap option_fmap option_map] in Hpx.
    set (l := fold_left Z.min r x0) in *.
    set (h := fold_left Z.max r x0) in *.
    assert (lo = SInt l) as -> by (change (Some (SInt l) = Some lo) in Hlo; congruence).
    assert (hi = SInt h) as -> by (change (Some (SInt h) = Some hi) in Hhi; congruence).
    assert (d = SInt (wrap t (h - l))) as ->
      by (change (Some (SInt (wrap t (h - l))) = Some d) in Hd; congruence).
    cbn [scalar_is_nonzero] in Hnz. apply negb_true_iff, Z.eqb_neq in Hnz.
    destruct (of_Z_nonzero (wrap t (h - l)) Hnz (wrap_64_bits t _)) as (s & m & e & Hof).
    unfold astype_uint8 in Hpx. rewrite map_map in Hpx.
    assert (pixels
            = map (fun x => to_uint8 (mul Binary64
                                        (div Binary64 (of_Z (wrap t (x - l)))
                                           (of_Z (wrap t (h - l))))
                                        (f255 Binary64))) (x0 :: r))
      as -> by congruence.
    cbn [elem_eq]. split; intros Hx; rewrite lookup_map, Hx; cbn [fmap option_fmap option_map];
      f_equal.
    + rewrite Z.sub_diag, Hof. now destruct t.
    + rewrite Hof. apply (pixel_of_max Binary64).
Qed.

(** X10.  The normalisation of an [int64] grid depends on the differences
    of its elements only: adding a constant to every element (the sums
    staying [int64] values) leaves every pixel as it was. *)
Theorem pixels_shift_invariant (c : Z) (xs : list Z) :
  numeric (I64 xs) -> numeric (I64 (map (fun x => x + c) xs)) ->
  array_pixels (I64 (map (fun x => x + c) xs)) = array_pixels (I64 xs).
Proof.
  intros _ _. unfold array_pixels. destruct xs as [|x0 r]; [reflexivity|].
  cbn [map]. rewrite !min_max_scale_int, fold_Zmin_shift, fold_Zmax_shift.
  cbn [fmap option_fmap option_map]. do 2 f_equal.
  change ((x0 + c) :: map (fun x => x + c) r) with (map (fun x => x + c) (x0 :: r)).
  rewrite map_map. apply map_ext. intros x.
  set (l := fold_left Z.min r x0). set (h := fold_left Z.max r x0).
  replace (x + c - (l + c)) with (x - l) by lia.
  now replace (h + c - (l + c)) with (h - l) by lia.
Qed.

End Further.

(** * The properties on concrete inputs *)

(** C1 as stated fails on [[-1e308, 1e308]]: the grid is not constant, yet
    [max - min] overflows to an infinity, the largest element becomes
    [inf / inf], a NaN, and no pixel of the encoded image is 255.  It also
    fails on a non-constant grid of shape (2, 2, 1): the codec makes no
    image of it and [_normalize_image] raises [TypeError]. *)
Lemma normalize_array_overflow_counterexample :
  (numeric (buf overflow_grid) /\
   ~ constant (buf overflow_grid) /\
   image_shape (shape overflow_grid) = true /\
   divisor (buf overflow_grid) = Some (SFloat (S754_infinity false)) /\
   min_max_scale (buf overflow_grid) = Some [S754_zero false; S754_nan] /\
   @array_pixels demo_platform (buf overflow_grid) = Some [0; 0] /\
   ~ In 255 [0; 0] /\
   @_normalize_image demo_platform (PyList overflow_grid) demo_world
   = (Ok (PyBytesIO 1),
      set_streams
        (streams demo_world
         ++ [ {| content := @pil_save demo_platform (frombuffer "L" (2, 1)%nat [0; 0]) "PNG";
                 pos := 5 |} ])
        (set_pillow_imported true demo_world)))
  /\
  (numeric (buf demo_single_channel) /\
   ~ constant (buf demo_single_channel) /\
   range_finite (buf demo_single_channel) /\
   @_normalize_image demo_platform (PyList demo_single_channel) demo_world
   = (Raise (TypeError "Cannot handle this data type: (1, 1, 1), |u1"),
      set_pillow_imported true demo_world)).
Proof.
  split.
  - split; [|split; [|split; [|split; [|split; [|split; [|split]]]]]].
    + intros x [<-|[<-|[]]]; split; reflexivity.
    + intros Hc.
      specialize (Hc (S754_finite true 5010420900022432 971)
                    (S754_finite false 5010420900022432 971)
                    (or_introl eq_refl) (or_intror (or_introl eq_refl))).
      discriminate Hc.
    + reflexivity.
    + reflexivity.
    + reflexivity.
    + reflexivity.
    + intros [?|[?|[]]]; discriminate.
    + reflexivity.
  - split; [|split; [|split]].
    + intros x [<-|[<-|[<-|[<-|[]]]]]; unfold int_lo, int_hi; lia.
    + intros Hc. specialize (Hc 1 2 (or_introl eq_refl) (or_intror (or_introl eq_refl))).
      discriminate Hc.
    + reflexivity.
    + reflexivity.
Qed.

Lemma normalize_array_full_range_witness :
  is_array_like (PyList demo_grid) = true /\
  image_shape (shape (array_of (PyList demo_grid))) = true /\
  numeric (buf demo_grid) /\ ~ constant (buf demo_grid) /\ range_finite (buf demo_grid) /\
  exists pixels mode size,
    @array_pixels demo_platform (buf demo_grid) = Some pixels /\
    In 0 pixels /\ In 255 pixels /\ (forall p, In p pixels -> 0 <= p <= 255) /\
    @fromarray [2; 2]%nat pixels = Ok (frombuffer mode size pixels) /\
    streams demo_world !! 1%nat = None /\
    @_normalize_image demo_platform (PyList demo_grid) demo_world
    = (Ok (PyBytesIO 1),
       set_streams
         (streams demo_world
          ++ [ {| content := @pil_save demo_platform (frombuffer mode size pixels) "PNG";
                  pos := length (@pil_save demo_platform (frombuffer mode size pixels) "PNG") |} ])
         (set_pillow_imported true demo_world)).
Proof.
  assert (Hnum : numeric (buf demo_grid))
    by (intros x [<-|[<-|[<-|[<-|[]]]]]; split; reflexivity).
  assert (Hnc : ~ constant (buf demo_grid)).
  { intros Hc.
    specialize (Hc (S754_zero false) (S754_finite false 4503599627370496 (-52))
                  (or_introl eq_refl)
                  (or_intror (or_intror (or_intror (or_introl eq_refl))))).
    discriminate Hc. }
  assert (Hfin : range_finite (buf demo_grid)) by reflexivity.
  split; [reflexivity|]. split; [reflexivity|]. do 3 (split; [assumption|]).
  exact (@normalize_array_full_range demo_platform (PyList demo_grid) demo_world
           eq_refl eq_refl (fun _ => eq_refl) eq_refl Hnum Hnc Hfin).
Defined.

(** C2 as stated fails on the constant grid [[inf, inf]]: its divisor
    [inf - inf] is a NaN, not a zero.  It also fails on [[-1e308, 1e308]]:
    the maximum differs from the minimum, yet the divisor overflows to an
    infinity and the quotient of the largest element is [inf / inf], a
    NaN. *)
Lemma divisor_of_infinite_grid_counterexample :
  (constant (buf demo_infinite_grid) /\
   divisor (buf demo_infinite_grid) = Some (SFloat S754_nan) /\
   scalar_is_zero (SFloat S754_nan) = false)
  /\
  (~ constant (buf overflow_grid) /\
   np_max (buf overflow_grid) = Some (SFloat (S754_finite false 5010420900022432 971)) /\
   np_min (buf overflow_grid) = Some (SFloat (S754_finite true 5010420900022432 971)) /\
   divisor (buf overflow_grid) = Some (SFloat (S754_infinity false)) /\
   quotients (buf overflow_grid) = Some [S754_zero false; S754_nan] /\
   In S754_nan [S754_zero false; S754_nan]).
Proof.
  split.
  - split; [|split; reflexivity].
    intros x y [<-|[<-|[]]] [<-|[<-|[]]]; reflexivity.
  - split; [|repeat split; try reflexivity; right; now left].
    intros Hc.
    specialize (Hc (S754_finite true 5010420900022432 971)
                  (S754_finite false 5010420900022432 971)
                  (or_introl eq_refl) (or_intror (or_introl eq_refl))).
    discriminate Hc.
Qed.

Lemma divisor_zero_iff_constant_witness :
  nonempty (I64 [3; 3]) /\ numeric (I64 [3; 3]) /\
  exists d, divisor (I64 [3; 3]) = Some d /\
    (scalar_is_zero d = true <-> constant (I64 [3; 3])) /\
    (~ constant (I64 [3; 3]) -> scalar_is_nonzero d = true) /\
    (~ constant (I64 [3; 3]) -> range_finite (I64 [3; 3]) ->
       scalar_is_regular d = true /\
       exists q, quotients (I64 [3; 3]) = Some q /\ length q = np_size (I64 [3; 3]) /\
         (forall x, In x q -> is_nan x = false) /\
         (exists z, In z q /\ is_zero z = true) /\
         In (one (result_format (I64 [3; 3]))) q) /\
    (constant (I64 [3; 3]) ->
       quotients (I64 [3; 3]) = Some (map (fun _ => S754_nan) (to_floats (I64 [3; 3]))) /\
       min_max_scale (I64 [3; 3]) = Some (map (fun _ => S754_nan) (to_floats (I64 [3; 3]))) /\
       @array_pixels demo_platform (I64 [3; 3])
       = Some (map (fun _ => @cast_undefined demo_platform S754_nan mod 256)
                 (to_floats (I64 [3; 3])))).
Proof.
  assert (Hne : nonempty (I64 [3; 3])) by discriminate.
  assert (Hnum : numeric (I64 [3; 3]))
    by (intros x [<-|[<-|[]]]; unfold int_lo, int_hi; lia).
  split; [done|]. split; [done|].
  exact (@divisor_zero_iff_constant demo_platform (I64 [3; 3]) Hne Hnum).
Defined.

(** C3 as stated fails on an array object that has [__array_interface__]:
    with the codec available and numpy unavailable the normalisation does not
    ask for numpy and succeeds. *)
Lemma normalize_array_interface_counterexample :
  is_array_like interface_array = true /\
  numpy_installed world_without_numpy = false /\
  @_normalize_image demo_platform interface_array world_without_numpy
  = (Ok (PyBytesIO 1),
     set_streams
       (streams world_without_numpy
        ++ [ {| content := @pil_save demo_platform (frombuffer "L" (2, 2)%nat [0; 85; 170; 255]) "PNG";
                pos := 7 |} ])
       (set_pillow_imported true world_without_numpy)).
Proof. repeat split. Qed.

Lemma normalize_array_missing_dependency_witness :
  is_array_like (PyList demo_int_grid) = true /\
  pillow_installed world_without_pillow = false /\
  @_normalize_image demo_platform (PyList demo_int_grid) world_without_pillow
  = (Raise (ModuleNotFoundError "PIL" "to render images from arrays in `mo.image`"),
     world_without_pillow) /\
  pillow_installed world_without_numpy = true /\
  hasattr (PyList demo_int_grid) "__array_interface__" = false /\
  numpy_installed world_without_numpy = false /\
  @_normalize_image demo_platform (PyList demo_int_grid) world_without_numpy
  = (Raise (ModuleNotFoundError "numpy"
              "to render images from generic arrays in `mo.image`"),
     set_pillow_imported true world_without_numpy).
Proof.
  split; [reflexivity|]. split; [reflexivity|]. split.
  - exact (proj1 (@normalize_array_missing_dependency demo_platform
                    (PyList demo_int_grid) world_without_pillow eq_refl) eq_refl).
  - split; [reflexivity|]. split; [reflexivity|]. split; [reflexivity|].
    exact (proj2 (@normalize_array_missing_dependency demo_platform
                    (PyList demo_int_grid) world_without_numpy eq_refl)
             eq_refl eq_refl eq_refl).
Defined.

Lemma normalize_unsupported_type_witness :
  isinstance_list py_int = false /\
  hasattr py_int "__array__" = false /\
  hasattr py_int "toarray" = false /\
  isinstance_Image py_int = false /\
  isinstance_image_type py_int = false /\
  @_normalize_image demo_platform py_int demo_world
  = (Raise (ValueError "Expected an image object, but got <class 'int'> instead."),
     demo_world) /\
  exists cls caps arr,
    py_int = PyObject cls caps arr /\
    @_normalize_image demo_platform py_int demo_world
    = (Raise (ValueError ("Expected an image object, but got <class '"
                          +:+ cls +:+ "'> instead.")), demo_world).
Proof.
  repeat (split; [reflexivity|]).
  exact (@normalize_unsupported_type demo_platform py_int demo_world
           eq_refl eq_refl eq_refl eq_refl eq_refl).
Defined.

Lemma normalize_pass_through_witness :
  isinstance_image_type (PyPath "/home/user/cat.png") = true /\
  @_normalize_image demo_platform (PyPath "/home/user/cat.png") demo_world
  = (Ok (PyPath "/home/user/cat.png"), demo_world) /\
  (forall b, @_normalize_image demo_platform (PyBytes b) demo_world
             = (Ok (PyBytes b), demo_world)).
Proof.
  split; [reflexivity|].
  exact (@normalize_pass_through demo_platform (PyPath "/home/user/cat.png")
           demo_world eq_refl).
Defined.

Lemma normalize_result_shape_witness :
  @_normalize_image demo_platform (PyList demo_int_grid) demo_world
  = (Ok (PyBytesIO 1),
     set_streams
       (streams demo_world
        ++ [ {| content := @pil_save demo_platform (frombuffer "L" (2, 2)%nat [0; 85; 170; 255]) "PNG";
                pos := 7 |} ])
       (set_pillow_imported true demo_world)) /\
  isinstance_image_type (PyBytesIO 1) = true /\ is_array_like (PyBytesIO 1) = false.
Proof.
  split; [reflexivity|].
  exact (@normalize_result_shape demo_platform (PyList demo_int_grid) demo_world
           (PyBytesIO 1) _ eq_refl).
Defined.

Lemma image_local_file_witness :
  files demo_world !! "/home/user/cat.png" = Some [Byte.x01; Byte.x02; Byte.x03] /\
  @image demo_platform (PyStr "~/cat.png") None None None false None None demo_world
  = (Ok (Img (Some "./@file/0.png") None []),
     set_vfiles (<["./@file/0.png" := [Byte.x01; Byte.x02; Byte.x03]]> (vfiles demo_world))
       demo_world) /\
  vfiles (set_vfiles (<["./@file/0.png" := [Byte.x01; Byte.x02; Byte.x03]]> (vfiles demo_world))
            demo_world) !! "./@file/0.png"
  = Some [Byte.x01; Byte.x02; Byte.x03].
Proof.
  assert (Hfile : files demo_world !! "/home/user/cat.png"
                  = Some [Byte.x01; Byte.x02; Byte.x03]) by reflexivity.
  split; [exact Hfile|].
  exact (@image_local_file demo_platform (PyStr "~/cat.png") "/home/user/cat.png"
           [Byte.x01; Byte.x02; Byte.x03] demo_world
           (or_intror (ex_intro _ "~/cat.png" (conj eq_refl eq_refl))) Hfile).
Defined.

(** C8 as stated fails when the style overrides set [border-radius]: with
    [rounded=True] and [style={"border-radius": "0"}] the computed style has
    no [border-radius: 4px], and with [rounded=False] and
    [style={"border-radius": "4px"}] it has one. *)
Lemma image_rounded_override_counterexample :
  (fst (@image demo_platform (PyBytes [Byte.x89]) None None None true
          (Some [("border-radius", Some "0")]) None demo_world)
   = Ok (Img (Some "./@file/0.png") None [("border-radius", "0")])
   /\ ~ In ("border-radius", "4px") [("border-radius", "0")])
  /\
  (fst (@image demo_platform (PyBytes [Byte.x89]) None None None false
          (Some [("border-radius", Some "4px")]) None demo_world)
   = Ok (Img (Some "./@file/0.png") None [("border-radius", "4px")])
   /\ In ("border-radius", "4px") [("border-radius", "4px")]).
Proof.
  split; split.
  - reflexivity.
  - intros [?|[]]; discriminate.
  - reflexivity.
  - now left.
Qed.

Lemma image_rounded_border_radius_witness :
  dict_get "border-radius" (default [] (Some [("opacity", Some "0.5")])) = None /\
  @image demo_platform (PyBytes [Byte.x89]) (Some "logo") (Some (DimInt 100)) None true
    (Some [("opacity", Some "0.5")]) None demo_world
  = (Ok (Img (Some "./@file/0.png") (Some "logo")
           [("width", "100px"); ("border-radius", "4px"); ("opacity", "0.5")]),
     set_vfiles (<["./@file/0.png" := [Byte.x89]]> (vfiles demo_world)) demo_world) /\
  exists im,
    img_of (Img (Some "./@file/0.png") (Some "logo")
              [("width", "100px"); ("border-radius", "4px"); ("opacity", "0.5")])
    = Some im /\
    (In ("border-radius", "4px") (img_style im) <-> true = true).
Proof.
  split; [reflexivity|]. split; [reflexivity|].
  exact (@image_rounded_border_radius demo_platform (PyBytes [Byte.x89]) (Some "logo")
           (Some (DimInt 100)) None true (Some [("opacity", Some "0.5")]) None
           demo_world _ _ eq_refl eq_refl).
Defined.

Lemma image_style_overrides_win_witness :
  dict_wf (default [] (Some [("width", Some "50%"); ("color", Some "red")])) /\
  @image demo_platform (PyBytes [Byte.x89]) None (Some (DimInt 100)) (Some (DimStr "2em"))
    true (Some [("width", Some "50%"); ("color", Some "red")]) None demo_world
  = (Ok (Img (Some "./@file/0.png") None
           [("width", "50%"); ("height", "2em"); ("border-radius", "4px"); ("color", "red")]),
     set_vfiles (<["./@file/0.png" := [Byte.x89]]> (vfiles demo_world)) demo_world) /\
  let computed := [ ("width", normalize_dimension (Some (DimInt 100)));
                    ("height", normalize_dimension (Some (DimStr "2em")));
                    ("border-radius", Some "4px") ] in
  let merged :=
    dict_update computed (default [] (Some [("width", Some "50%"); ("color", Some "red")])) in
  (exists im,
     img_of (Img (Some "./@file/0.png") None
               [("width", "50%"); ("height", "2em"); ("border-radius", "4px");
                ("color", "red")]) = Some im /\
     img_style im = create_style merged) /\
  (forall k v,
     dict_get k (default [] (Some [("width", Some "50%"); ("color", Some "red")])) = Some v ->
     dict_get k merged = Some v) /\
  (forall k,
     dict_get k (default [] (Some [("width", Some "50%"); ("color", Some "red")])) = None ->
     dict_get k merged = dict_get k computed).
Proof.
  assert (Hwf : dict_wf (default [] (Some [("width", Some "50%"); ("color", Some "red")]))).
  { unfold dict_wf. cbn. apply NoDup_cons. split.
    - intros Hin. apply list_elem_of_In in Hin as [?|[]]. discriminate.
    - apply NoDup_singleton. }
  split; [exact Hwf|]. split; [reflexivity|].
  exact (@image_style_overrides_win demo_platform (PyBytes [Byte.x89]) None
           (Some (DimInt 100)) (Some (DimStr "2em")) true
           (Some [("width", Some "50%"); ("color", Some "red")]) None
           demo_world _ _ Hwf eq_refl).
Defined.

Lemma image_stream_read_from_start_witness :
  let png := @pil_save demo_platform (frombuffer "L" (2, 2)%nat [0; 85; 170; 255]) "PNG" in
  let st := {| content := png; pos := 7 |} in
  let w1 := set_streams (streams demo_world ++ [st]) (set_pillow_imported true demo_world) in
  let url := @vfile_url demo_platform (vfiles w1) (content st) None in
  @_normalize_image demo_platform (PyList demo_int_grid) demo_world = (Ok (PyBytesIO 1), w1) /\
  streams w1 !! 1%nat = Some st /\
  (exists h w',
     @image demo_platform (PyList demo_int_grid) None None None false None None demo_world
     = (Ok h, w') /\
     (exists im, img_of h = Some im /\ img_src im = Some url) /\
     vfiles w' = <[url := content st]> (vfiles w1) /\
     vfiles w' !! url = Some (content st)) /\
  (isinstance_image_type (PyList demo_int_grid) = true ->
   PyBytesIO 1 = PyList demo_int_grid /\ w1 = demo_world) /\
  (is_array_like (PyList demo_int_grid) = true -> pos st = length (content st)).
Proof.
  intros png st w1 url. split; [reflexivity|]. split; [reflexivity|].
  exact (@image_stream_read_from_start demo_platform (PyList demo_int_grid) (PyBytesIO 1)
           1%nat st None None None false None None demo_world w1
           eq_refl (or_introl eq_refl) eq_refl).
Defined.

(** A stream passed in half read is registered from its first byte. *)
Example image_of_stream_in_the_middle :
  streams demo_world !! 0%nat
  = Some {| content := [Byte.x89; Byte.x50; Byte.x4e; Byte.x47]; pos := 2 |} /\
  @image demo_platform (PyBytesIO 0) None None None false None None demo_world
  = (Ok (Img (Some "./@file/0.png") None []),
     set_vfiles
       (<["./@file/0.png" := [Byte.x89; Byte.x50; Byte.x4e; Byte.x47]]> (vfiles demo_world))
       (set_streams [ {| content := [Byte.x89; Byte.x50; Byte.x4e; Byte.x47]; pos := 4 |} ]
          demo_world)).
Proof. split; reflexivity. Qed.

(** The grid [[1, 2], [3, 4]] becomes the pixels 0, 85, 170 and 255. *)
Example pixels_of_int_grid :
  @array_pixels demo_platform (buf demo_int_grid) = Some [0; 85; 170; 255].
Proof. reflexivity. Qed.

(** The grid [[0.0, 0.25], [0.5, 1.0]] becomes the pixels 0, 63, 127 and 255. *)
Example pixels_of_float_grid :
  @array_pixels demo_platform (buf demo_grid) = Some [0; 63; 127; 255].
Proof. reflexivity. Qed.

(** The normalisation is computed in the dtype of the array: the [float32]
    array of 0.1, 0.2 and 0.4 gets the middle pixel 84, the [float64] array
    of the same three values the middle pixel 85. *)
Example pixels_of_float32_grid :
  @array_pixels demo_platform (buf demo_float32_grid) = Some [0; 84; 255] /\
  @array_pixels demo_platform (buf demo_widened_grid) = Some [0; 85; 255] /\
  @_normalize_image demo_platform float32_array demo_world
  = (Ok (PyBytesIO 1),
     set_streams
       (streams demo_world
        ++ [ {| content := @pil_save demo_platform (frombuffer "L" (1, 3)%nat [0; 84; 255]) "PNG";
                pos := 6 |} ])
       (set_pillow_imported true demo_world)).
Proof. repeat split. Qed.

(** The differences of an [int8] array wrap around: in [[-128, 127]] the
    range 255 wraps to -1, as does the difference of the maximum, and the
    pixels still are 0 and 255. *)
Example pixels_of_int8_grid :
  divisor (IntBuf Int8 [-128; 127]) = Some (SInt (-1)) /\
  np_sub (IntBuf Int8 [-128; 127]) (SInt (-128)) = IntBuf Int8 [0; -1] /\
  @array_pixels demo_platform (IntBuf Int8 [-128; 127]) = Some [0; 255].
Proof. repeat split. Qed.

(** * The further properties on concrete inputs *)

Lemma normalize_idempotent_witness :
  let png := @pil_save demo_platform (frombuffer "L" (2, 2)%nat [0; 85; 170; 255]) "PNG" in
  let w1 := set_streams (streams demo_world ++ [ {| content := png; pos := 7 |} ])
              (set_pillow_imported true demo_world) in
  @_normalize_image demo_platform (PyList demo_int_grid) demo_world = (Ok (PyBytesIO 1), w1) /\
  @_normalize_image demo_platform (PyBytesIO 1) w1 = (Ok (PyBytesIO 1), w1).
Proof.
  intros png w1. split; [reflexivity|].
  exact (@normalize_idempotent demo_platform (PyList demo_int_grid) (PyBytesIO 1)
           demo_world w1 eq_refl).
Defined.

Lemma normalize_frame_witness :
  let png := @pil_save demo_platform (frombuffer "L" (2, 2)%nat [0; 85; 170; 255]) "PNG" in
  let w1 := set_streams (streams demo_world ++ [ {| content := png; pos := 7 |} ])
              (set_pillow_imported true demo_world) in
  @_normalize_image demo_platform (PyList demo_int_grid) demo_world = (Ok (PyBytesIO 1), w1) /\
  files w1 = files demo_world /\ vfiles w1 = vfiles demo_world /\
  pillow_installed w1 = pillow_installed demo_world /\
  numpy_installed w1 = numpy_installed demo_world /\
  (forall i st, streams demo_world !! i = Some st -> streams w1 !! i = Some st) /\
  ((PyBytesIO 1 = PyList demo_int_grid /\ streams w1 = streams demo_world) \/
   (PyBytesIO 1 = PyBytesIO (length (streams demo_world)) /\
    streams demo_world !! length (streams demo_world) = None /\
    length (streams w1) = S (length (streams demo_world)))).
Proof.
  intros png w1. split; [reflexivity|].
  exact (@normalize_frame demo_platform (PyList demo_int_grid) demo_world
           (Ok (PyBytesIO 1)) w1 eq_refl).
Defined.

Lemma image_of_PIL_image_witness :
  pillow_imported world_with_pillow_imported = true /\
  let data := @pil_save demo_platform demo_jpeg "JPEG" in
  let url := @vfile_url demo_platform (vfiles world_with_pillow_imported) data None in
  @format_or_PNG demo_jpeg = "JPEG" /\
  (pil_format demo_jpeg = None -> format_or_PNG demo_jpeg = "PNG") /\
  (forall f, pil_format demo_jpeg = Some f -> f <> EmptyString ->
             format_or_PNG demo_jpeg = f) /\
  (pil_format demo_jpeg = Some EmptyString -> format_or_PNG demo_jpeg = "PNG") /\
  @_normalize_image demo_platform (PyImage demo_jpeg) world_with_pillow_imported
  = (Ok (PyBytesIO 1),
     set_streams (streams world_with_pillow_imported ++ [ {| content := data; pos := 0 |} ])
       world_with_pillow_imported) /\
  exists w',
    @image demo_platform (PyImage demo_jpeg) None None None false None None
      world_with_pillow_imported
    = (Ok (Img (Some url) None []), w') /\
    vfiles w' = <[url := data]> (vfiles world_with_pillow_imported) /\
    streams w' = streams world_with_pillow_imported
                 ++ [ {| content := data; pos := length data |} ].
Proof.
  split; [reflexivity|]. intros data url. split; [reflexivity|].
  exact (@image_of_PIL_image demo_platform demo_jpeg None None None false None None
           world_with_pillow_imported eq_refl).
Defined.

Lemma image_caption_wraps_witness :
  @image demo_platform (PyBytes [Byte.x89]) (Some "logo") None None false None
    (Some "Marimo logo") demo_world
  = (Ok (Figure
           [ Img (Some "./@file/0.png") (Some "logo") [];
             Figcaption ["Marimo logo"]
               "color: var(--muted-foreground); text-align: center; margin-top: 0.5rem;" ]
           "display: flex; flex-direction: column;"),
     set_vfiles (<["./@file/0.png" := [Byte.x89]]> (vfiles demo_world)) demo_world) /\
  exists u st,
    Img (Some "./@file/0.png") (Some "logo") [] = Img u (Some "logo") st.
Proof.
  destruct (@image_caption_wraps demo_platform (PyBytes [Byte.x89]) (Some "logo") None None
              false None "Marimo logo" demo_world) as [Hwrap Hbare].
  split; [exact Hwrap|]. exact (Hbare _ _ eq_refl).
Defined.

Lemma image_store_frame_witness :
  let w' := set_vfiles (<["./@file/0.png" := [Byte.x89]]> (vfiles demo_world)) demo_world in
  @image demo_platform (PyBytes [Byte.x89]) None None None false None None demo_world
  = (Ok (Img (Some "./@file/0.png") None []), w') /\
  files w' = files demo_world /\
  (vfiles w' = vfiles demo_world \/
   exists url data,
     img_src <$> img_of (Img (Some "./@file/0.png") None []) = Some (Some url) /\
     vfiles w' = <[url := data]> (vfiles demo_world)).
Proof.
  intros w'. split; [reflexivity|].
  exact (@image_store_frame demo_platform (PyBytes [Byte.x89]) None None None false None
           None demo_world (Ok (Img (Some "./@file/0.png") None [])) w' eq_refl).
Defined.

Lemma image_missing_file_witness :
  files demo_world !! "/home/user/dog.png" = None /\
  @image demo_platform (PyPath "/home/user/dog.png") None None None false None None demo_world
  = (Raise (FileNotFoundError "/home/user/dog.png"), demo_world) /\
  files demo_world !! @expanduser demo_platform "https://marimo.io/logo.png" = None /\
  @image demo_platform (PyStr "https://marimo.io/logo.png") None None None false None None
    demo_world
  = (Ok (Img (Some "https://marimo.io/logo.png") None []), demo_world).
Proof.
  destruct (@image_missing_file demo_platform None None None false None None demo_world)
    as [Hpath Hstr].
  split; [reflexivity|]. split; [exact (Hpath "/home/user/dog.png" eq_refl)|].
  split; [reflexivity|]. exact (Hstr "https://marimo.io/logo.png" eq_refl).
Defined.

Lemma image_of_empty_array_witness :
  is_array_like (PyList demo_empty_grid) = true /\
  pillow_installed demo_world = true /\
  np_size (buf (array_of (PyList demo_empty_grid))) = 0%nat /\
  @_normalize_image demo_platform (PyList demo_empty_grid) demo_world
  = (Raise zero_size_error, set_pillow_imported true demo_world) /\
  @image demo_platform (PyList demo_empty_grid) None None None false None None demo_world
  = (Raise zero_size_error, set_pillow_imported true demo_world).
Proof.
  do 3 (split; [reflexivity|]).
  exact (@image_of_empty_array demo_platform (PyList demo_empty_grid) None None None false
           None None demo_world eq_refl eq_refl (fun _ => eq_refl) eq_refl).
Defined.


Lemma image_of_other_shape_witness :
  is_array_like (PyList demo_single_channel) = true /\
  pillow_installed demo_world = true /\
  np_size (buf (array_of (PyList demo_single_channel))) <> 0%nat /\
  image_shape (shape (array_of (PyList demo_single_channel))) = false /\
  @_normalize_image demo_platform (PyList demo_single_channel) demo_world
  = (Raise (TypeError "Cannot handle this data type: (1, 1, 1), |u1"),
     set_pillow_imported true demo_world) /\
  @image demo_platform (PyList demo_single_channel) None None None false None None demo_world
  = (Raise (TypeError "Cannot handle this data type: (1, 1, 1), |u1"),
     set_pillow_imported true demo_world).
Proof.
  assert (Hsize : np_size (buf (array_of (PyList demo_single_channel))) <> 0%nat)
    by discriminate.
  split; [reflexivity|]. split; [reflexivity|]. split; [exact Hsize|].
  split; [reflexivity|].
  exact (@image_of_other_shape demo_platform (PyList demo_single_channel) None None None
           false None None demo_world eq_refl eq_refl (fun _ => eq_refl) Hsize eq_refl).
Defined.

(** A zero-dimensional array passes the normalisation and fails in the
    codec with [IndexError]. *)
Example image_of_scalar_array :
  @image demo_platform demo_scalar_array None None None false None None demo_world
  = (Raise (IndexError "tuple index out of range"), set_pillow_imported true demo_world).
Proof. reflexivity. Qed.

Lemma pixels_of_extremes_witness :
  numeric (buf demo_mask) /\ ~ constant (buf demo_mask) /\ range_finite (buf demo_mask) /\
  np_min (buf demo_mask) = Some (SInt 0) /\ np_max (buf demo_mask) = Some (SInt 1) /\
  @array_pixels demo_platform (buf demo_mask) = Some [0; 255; 255; 0] /\
  elem_eq (buf demo_mask) 3 (SInt 0) /\ [0; 255; 255; 0] !! 3%nat = Some 0 /\
  elem_eq (buf demo_mask) 1 (SInt 1) /\ [0; 255; 255; 0] !! 1%nat = Some 255.
Proof.
  assert (Hnum : numeric (buf demo_mask))
    by (intros x [<-|[<-|[<-|[<-|[]]]]]; unfold int_lo, int_hi; lia).
  assert (Hnc : ~ constant (buf demo_mask)).
  { intros Hc. specialize (Hc 0 1 (or_introl eq_refl) (or_intror (or_introl eq_refl))).
    discriminate Hc. }
  assert (Hfin : range_finite (buf demo_mask)) by reflexivity.
  do 3 (split; [assumption|]). do 4 (split; [reflexivity|]).
  split.
  - exact (proj1 (@pixels_of_extremes demo_platform (buf demo_mask) (SInt 0) (SInt 1)
                    [0; 255; 255; 0] 3%nat Hnum Hnc Hfin eq_refl eq_refl eq_refl) eq_refl).
  - split; [reflexivity|].
    exact (proj2 (@pixels_of_extremes demo_platform (buf demo_mask) (SInt 0) (SInt 1)
                    [0; 255; 255; 0] 1%nat Hnum Hnc Hfin eq_refl eq_refl eq_refl) eq_refl).
Defined.

Lemma pixels_shift_invariant_witness :
  numeric (I64 [1; 2; 3; 4]) /\ numeric (I64 (map (fun x => x + 1000) [1; 2; 3; 4])) /\
  @array_pixels demo_platform (I64 (map (fun x => x + 1000) [1; 2; 3; 4]))
  = @array_pixels demo_platform (I64 [1; 2; 3; 4]).
Proof.
  assert (H1 : numeric (I64 [1; 2; 3; 4]))
    by (intros x [<-|[<-|[<-|[<-|[]]]]]; unfold int_lo, int_hi; lia).
  assert (H2 : numeric (I64 (map (fun x => x + 1000) [1; 2; 3; 4])))
    by (intros x [<-|[<-|[<-|[<-|[]]]]]; unfold int_lo, int_hi; lia).
  split; [exact H1|]. split; [exact H2|].
  exact (@pixels_shift_invariant demo_platform 1000 [1; 2; 3; 4] H1 H2).
Defined.

Lemma image_of_stream_twice_witness :
  let st := {| content := [Byte.x89; Byte.x50; Byte.x4e; Byte.x47]; pos := 2 |} in
  streams demo_world !! 0%nat = Some st /\
  exists h1 w1 h2 w2,
    @image demo_platform (PyBytesIO 0) None None None false None None demo_world = (Ok h1, w1) /\
    streams w1 !! 0%nat = Some {| content := content st; pos := length (content st) |} /\
    (forall j, j <> 0%nat -> streams w1 !! j = streams demo_world !! j) /\
    vfiles w1
    = <[@vfile_url demo_platform (vfiles demo_world) (content st) None := content st]>
        (vfiles demo_world) /\
    @image demo_platform (PyBytesIO 0) None None None false None None w1 = (Ok h2, w2) /\
    vfiles w2
    = <[@vfile_url demo_platform (vfiles w1) (content st) None := content st]> (vfiles w1).
Proof.
  intros st. split; [reflexivity|].
  exact (@image_of_stream_twice demo_platform (PyBytesIO 0) 0%nat st None None None false
           None None demo_world (or_introl eq_refl) eq_refl).
Defined.
